(** * generate_filelist.py: rename audio files to content hashes, emit a manifest

    A shallow embedding of [src/generate_filelist.py] and the properties of
    its specification.

    - [SHA256] models [hashlib.sha256] (FIPS 180-4) on byte lists.
    - [Renamer] holds the file system model, the script's functions
      ([sha256_of_file], [is_already_hashed], [main]) and the theorems.

    Modelling choices, all on the side of the source:
    - The audio directory is a finite map from entry names to entries; an
      entry is a regular file with its contents or a sub-directory.  Paths
      inside [AUDIO_DIR] are identified with their last component, since
      every path the script builds is [AUDIO_DIR / name].
    - Names are byte strings (UTF-8).  Their byte order is Python's code
      point order, and a name with a non-ASCII character fails the
      conformance check under either way of counting its length.
    - POSIX behaviour: [glob] is case sensitive and matches dot files and
      sub-directories, [rename] replaces an existing regular file and is a
      no-op when source and target are the same path.
    - [filelist.json] is represented by the list that [json.dump] writes;
      opening and writing it does not fail.
    - An uncaught Python exception ends the process with status 1; the
      traceback that the interpreter prints is not part of [stderr].

    Scope of the model.  An entry is a separately stored, readable regular
    file or a sub-directory: hard links between entries (for which
    rename(2) does nothing), symbolic links, permission errors and a failing
    write of the manifest are not modelled, and names are taken without
    path separator, as [glob] yields them.  The theorems stated for every
    directory or every outcome are limited to what does not depend on these
    cases; where one could, the statement carries a hypothesis that rules it
    out ([no_deep_collision], a manifest without repetition, a name without
    separator). *)

From Stdlib Require Import ZArith List Strings.String Strings.Ascii Strings.Byte Lia.
From stdpp Require Import gmap strings list sorting pretty.

(** ** hashlib.sha256 *)

Module SHA256.

Local Open Scope Z_scope.

Definition wrap32 (x : Z) : Z := x mod 2 ^ 32.
Definition add32 (x y : Z) : Z := wrap32 (x + y).
Definition not32 (x : Z) : Z := Z.lxor x 0xFFFFFFFF.
Definition shr (n x : Z) : Z := Z.shiftr x n.
Definition rotr (n x : Z) : Z :=
  Z.lor (Z.shiftr x n) (wrap32 (Z.shiftl x (32 - n))).

Definition Ch (x y z : Z) : Z := Z.lxor (Z.land x y) (Z.land (not32 x) z).
Definition Maj (x y z : Z) : Z :=
  Z.lxor (Z.lxor (Z.land x y) (Z.land x z)) (Z.land y z).
Definition bsig0 (x : Z) : Z := Z.lxor (Z.lxor (rotr 2 x) (rotr 13 x)) (rotr 22 x).
Definition bsig1 (x : Z) : Z := Z.lxor (Z.lxor (rotr 6 x) (rotr 11 x)) (rotr 25 x).
Definition ssig0 (x : Z) : Z := Z.lxor (Z.lxor (rotr 7 x) (rotr 18 x)) (shr 3 x).
Definition ssig1 (x : Z) : Z := Z.lxor (Z.lxor (rotr 17 x) (rotr 19 x)) (shr 10 x).

(** Round constants, four per row. *)
Definition round_constants : list Z :=
  [ 0x428A2F98; 0x71374491; 0xB5C0FBCF; 0xE9B5DBA5;
    0x3956C25B; 0x59F111F1; 0x923F82A4; 0xAB1C5ED5;
    0xD807AA98; 0x12835B01; 0x243185BE; 0x550C7DC3;
    0x72BE5D74; 0x80DEB1FE; 0x9BDC06A7; 0xC19BF174;
    0xE49B69C1; 0xEFBE4786; 0x0FC19DC6; 0x240CA1CC;
    0x2DE92C6F; 0x4A7484AA; 0x5CB0A9DC; 0x76F988DA;
    0x983E5152; 0xA831C66D; 0xB00327C8; 0xBF597FC7;
    0xC6E00BF3; 0xD5A79147; 0x06CA6351; 0x14292967;
    0x27B70A85; 0x2E1B2138; 0x4D2C6DFC; 0x53380D13;
    0x650A7354; 0x766A0ABB; 0x81C2C92E; 0x92722C85;
    0xA2BFE8A1; 0xA81A664B; 0xC24B8B70; 0xC76C51A3;
    0xD192E819; 0xD6990624; 0xF40E3585; 0x106AA070;
    0x19A4C116; 0x1E376C08; 0x2748774C; 0x34B0BCB5;
    0x391C0CB3; 0x4ED8AA4A; 0x5B9CCA4F; 0x682E6FF3;
    0x748F82EE; 0x78A5636F; 0x84C87814; 0x8CC70208;
    0x90BEFFFA; 0xA4506CEB; 0xBEF9A3F7; 0xC67178F2 ].

(** The eight 32-bit words of a hash value, also used for the working
    variables a..h of one compression. *)
Record words8 : Type := W8 { wa : Z; wb : Z; wc : Z; wd : Z; we : Z; wf : Z; wg : Z; wh : Z }.

Definition initial_hash : words8 :=
  W8 0x6A09E667 0xBB67AE85 0x3C6EF372 0xA54FF53A 0x510E527F 0x9B05688C 0x1F83D9AB 0x5BE0CD19.

(** Padding: the message, one byte 0x80, zero bytes up to 56 modulo 64 and
    the bit length as a 64-bit big-endian integer. *)
Definition be_bytes (n : nat) (x : Z) : list Z :=
  map (fun i => Z.land (Z.shiftr x (8 * Z.of_nat i)) 0xFF) (rev (seq 0 n)).

Definition pad (msg : list Z) : list Z :=
  let len := length msg in
  msg ++ [0x80] ++ repeat 0 ((119 - len mod 64) mod 64)%nat
      ++ be_bytes 8 (8 * Z.of_nat len).

Definition be_word (bs : list Z) : Z :=
  fold_left (fun acc b => Z.lor (Z.shiftl acc 8) b) bs 0.

Fixpoint group {A : Type} (k : nat) (fuel : nat) (l : list A) : list (list A) :=
  match fuel with
  | O => []
  | S fuel' =>
      match l with
      | [] => []
      | _ => firstn k l :: group k fuel' (skipn k l)
      end
  end.

(** A 64-byte block as sixteen big-endian words. *)
Definition block_words (block : list Z) : list Z :=
  map be_word (group 4 16 block).

(** Message schedule: [n] further words appended to the ones so far. *)
Fixpoint extend (n : nat) (w : list Z) : list Z :=
  match n with
  | O => w
  | S n' =>
      let t := length w in
      let at_ (k : nat) := nth (t - k) w 0 in
      extend n' (w ++ [add32 (add32 (ssig1 (at_ 2%nat)) (at_ 7%nat))
                             (add32 (ssig0 (at_ 15%nat)) (at_ 16%nat))])
  end.

Definition schedule (block : list Z) : list Z := extend 48 (block_words block).

Definition round (v : words8) (kw : Z * Z) : words8 :=
  let t1 := add32 (add32 (add32 (wh v) (bsig1 (we v))) (Ch (we v) (wf v) (wg v)))
                  (add32 (fst kw) (snd kw)) in
  let t2 := add32 (bsig0 (wa v)) (Maj (wa v) (wb v) (wc v)) in
  W8 (add32 t1 t2) (wa v) (wb v) (wc v) (add32 (wd v) t1) (we v) (wf v) (wg v).

Definition compress (h : words8) (block : list Z) : words8 :=
  let v := fold_left round (combine round_constants (schedule block)) h in
  W8 (add32 (wa h) (wa v)) (add32 (wb h) (wb v)) (add32 (wc h) (wc v))
     (add32 (wd h) (wd v)) (add32 (we h) (we v)) (add32 (wf h) (wf v))
     (add32 (wg h) (wg v)) (add32 (wh h) (wh v)).

Definition digest_words (msg : list Z) : words8 :=
  let padded := pad msg in
  fold_left compress (group 64 (length padded) padded) initial_hash.

(** Lowercase hexadecimal rendering, as [hexdigest] prints it. *)
Definition hex_alphabet : list ascii := list_ascii_of_string "0123456789abcdef".

Definition hex_digit (x : Z) : ascii :=
  nth (Z.to_nat (Z.land x 0xF)) hex_alphabet "0"%char.

Definition hex_word (x : Z) : list ascii :=
  map (fun i => hex_digit (Z.shiftr x (4 * Z.of_nat i))) (rev (seq 0 8)).

Definition hex_words8 (h : words8) : list ascii :=
  hex_word (wa h) ++ hex_word (wb h) ++ hex_word (wc h) ++ hex_word (wd h)
    ++ hex_word (we h) ++ hex_word (wf h) ++ hex_word (wg h) ++ hex_word (wh h).

Definition byte_value (b : byte) : Z := Z.of_N (Byte.to_N b).

(** [hashlib.sha256(data).hexdigest()] *)
Definition hexdigest (data : list byte) : string :=
  string_of_list_ascii (hex_words8 (digest_words (map byte_value data))).

End SHA256.

(** ** The script *)

Module Renamer.

(** *** Strings as Python uses them *)

Definition chars (s : string) : list ascii := list_ascii_of_string s.
Definition str (l : list ascii) : string := string_of_list_ascii l.

(** [s[:n]] *)
Definition prefix_of (n : nat) (s : string) : string := str (take n (chars s)).

(** [s.rfind(c)], with [None] for -1. *)
Fixpoint rfind (c : ascii) (l : list ascii) : option nat :=
  match l with
  | [] => None
  | x :: r =>
      match rfind c r with
      | Some i => Some (S i)
      | None => if Ascii.eqb x c then Some O else None
      end
  end.

(** [Path(name).stem] for a name without separators (all that [main]
    passes; [Path] would first take the last path component): the name up to
    its last dot, unless that dot is the first or the last character (CPython
    up to 3.12; later versions differ only for names starting with a run of
    dots, which fail the conformance check either way). *)
Definition stem (name : string) : string :=
  let l := chars name in
  match rfind "."%char l with
  | Some i => if (0 <? i)%nat && (i <? length l - 1)%nat then str (take i l) else name
  | None => name
  end.

(** [fnmatch] of a name against the pattern [*.mp3]. *)
Definition matches_mp3 (name : string) : bool :=
  let l := chars name in
  bool_decide (drop (length l - 4) l = chars ".mp3").

(** *** The file system *)

Inductive entry : Type :=
| File (content : list byte)
| Directory (empty : bool).

Inductive exn : Type :=
| FileNotFoundError
| IsADirectoryError
| NotADirectoryError
| OSError
| OutOfFuel.

Inductive result (A : Type) : Type :=
| Ok (a : A)
| Raise (e : exn).
Arguments Ok {A} a.
Arguments Raise {A} e.

(** Computations over the audio directory that may raise.  The directory
    reached when an exception is raised is kept: nothing is rolled back. *)
Definition M (A : Type) : Type := gmap string entry → gmap string entry * result A.

Definition ret {A : Type} (a : A) : M A := λ d, (d, Ok a).
Definition raise {A : Type} (e : exn) : M A := λ d, (d, Raise e).
Definition bind {A B : Type} (m : M A) (k : A → M B) : M B :=
  λ d, match m d with
       | (d', Ok a) => k a d'
       | (d', Raise e) => (d', Raise e)
       end.

Notation "'do' x <- m ; k" := (bind m (λ x, k))
  (at level 10, x name, m at level 100, k at level 200).
Notation "'run' m ; k" := (bind m (λ _, k))
  (at level 10, m at level 100, k at level 200).

(** [open(path, "rb")], giving the bytes still to be read.  Of the ways
    [open] can fail, the two that the entry kinds of the model give rise to. *)
Definition open_rb (name : string) : M (list byte) :=
  λ d, match d !! name with
       | Some (File content) => (d, Ok content)
       | Some (Directory _) => (d, Raise IsADirectoryError)
       | None => (d, Raise FileNotFoundError)
       end.

(** [path.exists()] *)
Definition path_exists (name : string) : M bool :=
  λ d, (d, Ok (bool_decide (is_Some (d !! name)))).

(** [src.rename(dst)], i.e. POSIX rename(2) within one directory whose
    entries are separately stored (two names of one file are not modelled). *)
Definition rename (src dst : string) : M unit :=
  λ d, match d !! src with
       | None => (d, Raise FileNotFoundError)
       | Some e =>
           if decide (src = dst) then (d, Ok tt)
           else match e, d !! dst with
                | File _, Some (Directory _) => (d, Raise IsADirectoryError)
                | Directory _, Some (File _) => (d, Raise NotADirectoryError)
                | Directory _, Some (Directory false) => (d, Raise OSError)
                | _, _ => (<[dst := e]> (delete src d), Ok tt)
                end
       end.

(** [sorted(AUDIO_DIR.glob("*.mp3"))] and [filenames.sort()]: Python
    compares strings, and paths of one directory, by code points. *)
Definition sorted (names : list string) : list string := merge_sort String.le names.

Definition glob_mp3 (d : gmap string entry) : list string :=
  filter (λ name, matches_mp3 name = true) (map_to_list d).*1.

(** *** generate_filelist.py *)

Definition HASH_LEN : nat := 12.
Definition CHUNK : nat := 2 ^ 13.

(** The loop [for chunk in iter(lambda: f.read(8192), b""): h.update(chunk)].
    [f] is what is left to read, [h] what the hash object was fed. *)
Fixpoint read_chunks (fuel : nat) (f : list byte) (h : list byte) : option (list byte) :=
  match fuel with
  | O => None
  | S fuel' =>
      match take CHUNK f with
      | [] => Some h
      | chunk => read_chunks fuel' (drop CHUNK f) (h ++ chunk)
      end
  end.

Definition sha256_of_file (path : string) : M string :=
  do f <- open_rb path;
  match read_chunks (S (length f)) f [] with
  | Some h => ret (SHA256.hexdigest h)
  | None => raise OutOfFuel
  end.

Definition is_already_hashed (name : string) : bool :=
  let stem := stem name in
  (length (chars stem) =? HASH_LEN)%nat
  && forallb (λ c, bool_decide (c ∈ chars "0123456789abcdef")) (chars stem).

(** One iteration of the loop over [mp3_files]. *)
Definition process (mp3 : string) (filenames : list string) (renamed_count : nat)
  : M (list string * nat) :=
  if is_already_hashed mp3 then ret (filenames ++ [mp3], renamed_count)
  else
    do digest <- sha256_of_file mp3;
    let content_hash := prefix_of HASH_LEN digest in
    let new_name := content_hash +:+ ".mp3" in
    do taken <- path_exists new_name;
    do new_name <- (if taken && negb (String.eqb new_name mp3)
                    then do full_hash <- sha256_of_file mp3;
                         ret (prefix_of (HASH_LEN + 4) full_hash +:+ ".mp3")
                    else ret new_name);
    run rename mp3 new_name;
    ret (filenames ++ [new_name], (renamed_count + 1)%nat).

Fixpoint for_each (mp3_files : list string) (filenames : list string) (renamed_count : nat)
  : M (list string * nat) :=
  match mp3_files with
  | [] => ret (filenames, renamed_count)
  | mp3 :: rest =>
      do r <- process mp3 filenames renamed_count;
      for_each rest (fst r) (snd r)
  end.

(** What the process can see and change.  [audio] is [None] when
    [AUDIO_DIR] is missing or is not a directory; [filelist] is the list
    held by [OUTPUT_FILE], [None] when that file does not exist. *)
Record world : Type := World {
  audio_path : string;
  output_path : string;
  audio : option (gmap string entry);
  filelist : option (list string);
  stdout : list string;
  stderr : list string
}.

Inductive outcome : Type :=
| Returned
| SysExit (code : Z)
| Uncaught (e : exn).

Definition exit_status (o : outcome) : Z :=
  match o with
  | Returned => 0%Z
  | SysExit code => code
  | Uncaught _ => 1%Z
  end.

Definition main (w : world) : world * outcome :=
  match audio w with
  | None =>
      (World (audio_path w) (output_path w) (audio w) (filelist w) (stdout w)
             (stderr w ++ ["❌ Audio directory not found: " +:+ audio_path w]),
       SysExit 1%Z)
  | Some d =>
      let mp3_files := sorted (glob_mp3 d) in
      match mp3_files with
      | [] =>
          (World (audio_path w) (output_path w) (audio w) (filelist w) (stdout w)
                 (stderr w ++ ["⚠️  No .mp3 files found in audio/"]),
           SysExit 1%Z)
      | _ =>
          let out1 := stdout w ++ ["📂 Found " +:+ pretty (length mp3_files)
                                     +:+ " MP3 file(s) in " +:+ audio_path w] in
          match for_each mp3_files [] 0%nat d with
          | (d', Raise e) =>
              (World (audio_path w) (output_path w) (Some d') (filelist w) out1 (stderr w),
               Uncaught e)
          | (d', Ok (filenames, renamed_count)) =>
              let filenames := sorted filenames in
              (World (audio_path w) (output_path w) (Some d') (Some filenames)
                     (out1 ++ ["✅ Renamed " +:+ pretty renamed_count +:+ " file(s)";
                               "✅ Wrote " +:+ pretty (length filenames)
                                 +:+ " entries to " +:+ output_path w])
                     (stderr w),
               Returned)
          end
      end
  end.

(** *** Vocabulary of the specification *)

Definition is_hex (c : ascii) : bool := bool_decide (c ∈ chars "0123456789abcdef").

(** Full match of [name] against the pattern [[0-9a-f]{k}\.mp3]. *)
Definition matches_hex_mp3 (k : nat) (name : string) : bool :=
  let l := chars name in
  (length l =? k + 4)%nat && forallb is_hex (take k l)
  && bool_decide (drop k l = chars ".mp3").

(** The name given to a file with contents [c]: the first [k] characters
    of its digest, then [.mp3]. *)
Definition hashed_name (k : nat) (c : list byte) : string :=
  prefix_of k (SHA256.hexdigest c) +:+ ".mp3".

(** The name the loop gives to a file with contents [c] when the directory
    is [d]: twelve digits, or sixteen when the twelve-digit name is taken. *)
Definition rename_target (d : gmap string entry) (c : list byte) : string :=
  if bool_decide (is_Some (d !! hashed_name 12 c)) then hashed_name 16 c
  else hashed_name 12 c.

(** An entry of the manifest under construction is settled in [d]: it
    matches the scan pattern, exists, and either passes the conformance
    check or is a sixteen-digit name that the loop will rename to itself. *)
Definition settled (d : gmap string entry) (n : string) : Prop :=
  matches_mp3 n = true ∧ is_Some (d !! n) ∧
  (is_already_hashed n = true
   ∨ ∃ c, d !! n = Some (File c) ∧ n = hashed_name 16 c
          ∧ is_Some (d !! hashed_name 12 c)).

(** Loop invariant: [todo] are the files still to visit, [filenames] the
    manifest so far. *)
Definition loop_inv (d : gmap string entry) (todo filenames : list string) : Prop :=
  NoDup todo
  ∧ (∀ m, m ∈ todo → is_Some (d !! m) ∧ matches_mp3 m = true)
  ∧ (∀ n, n ∈ filenames → settled d n)
  ∧ (∀ n, is_Some (d !! n) → matches_mp3 n = true → n ∈ todo ∨ n ∈ filenames).





(** The names that fail the conformance check. *)
Definition to_hash (names : list string) : list string :=
  filter (λ m, is_already_hashed m = false) names.

(** The three progress lines of a run that found [found] files and renamed
    [renamed] of them. *)
Definition progress (w : world) (found renamed : nat) : list string :=
  ["📂 Found " +:+ pretty found +:+ " MP3 file(s) in " +:+ audio_path w;
   "✅ Renamed " +:+ pretty renamed +:+ " file(s)";
   "✅ Wrote " +:+ pretty found +:+ " entries to " +:+ output_path w].

(** The run ended normally (exit status 0). *)
Definition succeeds (w : world) : Prop := snd (main w) = Returned.

(** *** The program with the collision test reduced to [new_path.exists()] *)

Definition process_exists_only (mp3 : string) (filenames : list string) (renamed_count : nat)
  : M (list string * nat) :=
  if is_already_hashed mp3 then ret (filenames ++ [mp3], renamed_count)
  else
    do digest <- sha256_of_file mp3;
    let content_hash := prefix_of HASH_LEN digest in
    let new_name := content_hash +:+ ".mp3" in
    do taken <- path_exists new_name;
    do new_name <- (if taken
                    then do full_hash <- sha256_of_file mp3;
                         ret (prefix_of (HASH_LEN + 4) full_hash +:+ ".mp3")
                    else ret new_name);
    run rename mp3 new_name;
    ret (filenames ++ [new_name], (renamed_count + 1)%nat).

Fixpoint for_each_exists_only (mp3_files : list string) (filenames : list string)
    (renamed_count : nat) : M (list string * nat) :=
  match mp3_files with
  | [] => ret (filenames, renamed_count)
  | mp3 :: rest =>
      do r <- process_exists_only mp3 filenames renamed_count;
      for_each_exists_only rest (fst r) (snd r)
  end.

Definition main_exists_only (w : world) : world * outcome :=
  match audio w with
  | None =>
      (World (audio_path w) (output_path w) (audio w) (filelist w) (stdout w)
             (stderr w ++ ["❌ Audio directory not found: " +:+ audio_path w]),
       SysExit 1%Z)
  | Some d =>
      let mp3_files := sorted (glob_mp3 d) in
      match mp3_files with
      | [] =>
          (World (audio_path w) (output_path w) (audio w) (filelist w) (stdout w)
                 (stderr w ++ ["⚠️  No .mp3 files found in audio/"]),
           SysExit 1%Z)
      | _ =>
          let out1 := stdout w ++ ["📂 Found " +:+ pretty (length mp3_files)
                                     +:+ " MP3 file(s) in " +:+ audio_path w] in
          match for_each_exists_only mp3_files [] 0%nat d with
          | (d', Raise e) =>
              (World (audio_path w) (output_path w) (Some d') (filelist w) out1 (stderr w),
               Uncaught e)
          | (d', Ok (filenames, renamed_count)) =>
              let filenames := sorted filenames in
              (World (audio_path w) (output_path w) (Some d') (Some filenames)
                     (out1 ++ ["✅ Renamed " +:+ pretty renamed_count +:+ " file(s)";
                               "✅ Wrote " +:+ pretty (length filenames)
                                 +:+ " entries to " +:+ output_path w])
                     (stderr w),
               Returned)
          end
      end
  end.

(** *** Sample worlds *)

Definition world_of (a : option (gmap string entry)) (out : option (list string)) : world :=
  World "/srv/wbtb/audio" "/srv/wbtb/filelist.json" a out [] [].

Definition abc : list byte := list_byte_of_string "abc".

(** Two, and three, files with the same contents. *)
Definition two_copies : gmap string entry :=
  list_to_map [("a.mp3"%string, File abc); ("b.mp3"%string, File abc)].

Definition three_copies : gmap string entry :=
  list_to_map [("a.mp3"%string, File abc); ("b.mp3"%string, File abc);
               ("c.mp3"%string, File abc)].

(** A file renamed by an earlier run and a new copy of it. *)
Definition renamed_and_copy : gmap string entry :=
  list_to_map [("ba7816bf8f01.mp3"%string, File abc); ("copy.mp3"%string, File abc)].


(** A conforming name with other contents, a file to rename, and entries
    that the scan does not match. *)
Definition mixed : gmap string entry :=
  list_to_map [("0123456789ab.mp3"%string, File abc); ("song.mp3"%string, File []);
               ("notes.txt"%string, File abc); ("old"%string, Directory false)].

(** A sub-directory whose name matches the scan and fails the conformance
    check. *)
Definition with_subdir : gmap string entry :=
  list_to_map [("a.mp3"%string, File abc); ("b.mp3"%string, Directory true);
               ("notes.txt"%string, File abc)].

(** A directory without any [.mp3] entry. *)
Definition no_mp3 : gmap string entry :=
  list_to_map [("notes.txt"%string, File abc); ("cover.MP3"%string, File []);
               ("old"%string, Directory true)].

End Renamer.

Import Renamer.

(** * Facts about strings *)

Section Strings.

Lemma str_chars (s : string) : str (chars s) = s.
Proof. apply string_of_list_ascii_of_string. Qed.

Lemma chars_str (l : list ascii) : chars (str l) = l.
Proof. apply list_ascii_of_string_of_list_ascii. Qed.

Lemma chars_inj (s t : string) : chars s = chars t → s = t.
Proof. intros E. rewrite <- (str_chars s), <- (str_chars t). by rewrite E. Qed.

Lemma chars_app (s t : string) : chars (s +:+ t) = chars s ++ chars t.
Proof. induction s as [|a s IH]; simpl; [done|]. unfold chars in *. simpl. by rewrite IH. Qed.

Lemma chars_prefix_of (n : nat) (s : string) : chars (prefix_of n s) = take n (chars s).
Proof. unfold prefix_of. apply chars_str. Qed.

Lemma rfind_dot_mp3 (l : list ascii) :
  rfind "."%char (l ++ chars ".mp3") = Some (length l).
Proof.
  induction l as [|a l IH]; [reflexivity|].
  rewrite <- app_comm_cons. cbn [rfind length]. by rewrite IH.
Qed.

(** The stem of [s.mp3] is [s], except that the stem of [.mp3] is [.mp3]. *)
Lemma stem_mp3 (s : string) : s ≠ ""%string → stem (s +:+ ".mp3") = s.
Proof.
  intros Hs. unfold stem. rewrite chars_app, rfind_dot_mp3.
  assert (0 < length (chars s))%nat as Hlen by (destruct s; [done | cbn; lia]).
  rewrite length_app. change (length (chars ".mp3")) with 4%nat.
  replace (0 <? length (chars s))%nat with true by (symmetry; apply Nat.ltb_lt; lia).
  replace (length (chars s) <? length (chars s) + 4 - 1)%nat with true
    by (symmetry; apply Nat.ltb_lt; lia).
  cbn [andb]. rewrite take_app_length. apply str_chars.
Qed.

Lemma matches_mp3_iff (name : string) :
  matches_mp3 name = true ↔ ∃ s, name = s +:+ ".mp3".
Proof.
  unfold matches_mp3. rewrite bool_decide_eq_true. split.
  - intros E. exists (str (take (length (chars name) - 4) (chars name))).
    apply chars_inj. rewrite chars_app, chars_str, <- E. by rewrite take_drop.
  - intros [s ->]. rewrite chars_app, length_app.
    replace (length (chars s) + length (chars ".mp3") - 4)%nat with (length (chars s))
      by (cbn; lia).
    by rewrite drop_app_length.
Qed.

Lemma matches_mp3_app (s : string) : matches_mp3 (s +:+ ".mp3") = true.
Proof. apply matches_mp3_iff. by exists s. Qed.

End Strings.

(** * Facts about the digest *)

Section Digest.

Local Open Scope Z_scope.

(** Test vectors of FIPS 180-4: the empty message, one block, two blocks. *)
Example hexdigest_empty :
  SHA256.hexdigest []
  = "e3b0c44298fc1c149afbf4c8996fb92427ae41e4649b934ca495991b7852b855"%string.
Proof. vm_compute. reflexivity. Qed.

Example hexdigest_abc :
  SHA256.hexdigest (list_byte_of_string "abc")
  = "ba7816bf8f01cfea414140de5dae2223b00361a396177a9cb410ff61f20015ad"%string.
Proof. vm_compute. reflexivity. Qed.

Example hexdigest_two_blocks :
  SHA256.hexdigest
    (list_byte_of_string "abcdbcdecdefdefgefghfghighijhijkijkljklmklmnlmnomnopnopq")
  = "248d6a61d20638b8e5c026930c3e6039a33ce45964ff2167f6ecedd419db06c1"%string.
Proof. vm_compute. reflexivity. Qed.

Lemma hex_alphabet_is_hex (n : nat) :
  (n < 16)%nat → is_hex (nth n SHA256.hex_alphabet "0"%char) = true.
Proof.
  intros Hn. do 16 (destruct n as [|n]; [vm_compute; reflexivity|]). lia.
Qed.

Lemma hex_digit_is_hex (x : Z) : is_hex (SHA256.hex_digit x) = true.
Proof.
  unfold SHA256.hex_digit. apply hex_alphabet_is_hex.
  change 0xF with (Z.ones 4). rewrite Z.land_ones by lia.
  pose proof (Z.mod_pos_bound x (2 ^ 4) ltac:(lia)). lia.
Qed.

Lemma hex_word_length (x : Z) : length (SHA256.hex_word x) = 8%nat.
Proof. unfold SHA256.hex_word. by rewrite length_map. Qed.

Lemma hex_word_is_hex (x : Z) : Forall (λ c, is_hex c = true) (SHA256.hex_word x).
Proof.
  unfold SHA256.hex_word. apply Forall_map, Forall_forall.
  intros i _. apply hex_digit_is_hex.
Qed.

(** [hexdigest] returns 64 lowercase hexadecimal digits. *)
Lemma hexdigest_length (data : list byte) : length (chars (SHA256.hexdigest data)) = 64%nat.
Proof.
  unfold SHA256.hexdigest. fold (str (SHA256.hex_words8
    (SHA256.digest_words (map SHA256.byte_value data)))).
  rewrite chars_str. unfold SHA256.hex_words8.
  by rewrite !length_app, !hex_word_length.
Qed.

Lemma hexdigest_is_hex (data : list byte) :
  Forall (λ c, is_hex c = true) (chars (SHA256.hexdigest data)).
Proof.
  unfold SHA256.hexdigest. fold (str (SHA256.hex_words8
    (SHA256.digest_words (map SHA256.byte_value data)))).
  rewrite chars_str. unfold SHA256.hex_words8.
  repeat (apply Forall_app; split); apply hex_word_is_hex.
Qed.

Lemma prefix_digest_length (k : nat) (c : list byte) :
  (k ≤ 64)%nat → length (chars (prefix_of k (SHA256.hexdigest c))) = k.
Proof.
  intros Hk. rewrite chars_prefix_of, length_take, hexdigest_length. lia.
Qed.

Lemma prefix_digest_is_hex (k : nat) (c : list byte) :
  Forall (λ x, is_hex x = true) (chars (prefix_of k (SHA256.hexdigest c))).
Proof. rewrite chars_prefix_of. apply Forall_take, hexdigest_is_hex. Qed.

Lemma prefix_digest_nonempty (k : nat) (c : list byte) :
  (0 < k ≤ 64)%nat → prefix_of k (SHA256.hexdigest c) ≠ ""%string.
Proof.
  intros Hk E. pose proof (prefix_digest_length k c ltac:(lia)) as L.
  rewrite E in L. cbn in L. lia.
Qed.

Lemma hashed_name_matches_mp3 (k : nat) (c : list byte) :
  matches_mp3 (hashed_name k c) = true.
Proof. apply matches_mp3_app. Qed.

Lemma matches_hex_mp3_intro (k : nat) (s : string) :
  length (chars s) = k → Forall (λ x, is_hex x = true) (chars s) →
  matches_hex_mp3 k (s +:+ ".mp3") = true.
Proof.
  intros <- F. unfold matches_hex_mp3.
  rewrite chars_app, length_app, take_app_length, drop_app_length.
  rewrite !andb_true_iff. split_and!.
  - by apply Nat.eqb_eq.
  - apply forallb_forall. intros x Hx.
    rewrite Forall_forall in F. apply F. by apply list_elem_of_In.
  - by apply bool_decide_eq_true.
Qed.

Lemma hashed_name_pattern (k : nat) (c : list byte) :
  (k ≤ 64)%nat → matches_hex_mp3 k (hashed_name k c) = true.
Proof.
  intros Hk. apply matches_hex_mp3_intro;
    [by apply prefix_digest_length | apply prefix_digest_is_hex].
Qed.

(** A twelve-digit hashed name passes the script's conformance check, a
    sixteen-digit one does not. *)
Lemma is_already_hashed_12 (c : list byte) : is_already_hashed (hashed_name 12 c) = true.
Proof.
  unfold is_already_hashed, hashed_name.
  rewrite stem_mp3 by (apply prefix_digest_nonempty; lia).
  rewrite prefix_digest_length by lia. cbn [Nat.eqb HASH_LEN andb].
  apply forallb_forall. intros x Hx.
  pose proof (prefix_digest_is_hex 12 c) as F.
  rewrite Forall_forall in F. apply (F x). by apply list_elem_of_In.
Qed.

Lemma is_already_hashed_16 (c : list byte) : is_already_hashed (hashed_name 16 c) = false.
Proof.
  unfold is_already_hashed, hashed_name.
  rewrite stem_mp3 by (apply prefix_digest_nonempty; lia).
  by rewrite prefix_digest_length by lia.
Qed.

(** A name found by the scan that passes the conformance check is twelve
    lowercase hexadecimal digits followed by [.mp3]. *)
Lemma conforming_pattern (name : string) :
  matches_mp3 name = true → is_already_hashed name = true →
  matches_hex_mp3 12 name = true.
Proof.
  intros [s ->]%matches_mp3_iff H.
  destruct (decide (s = ""%string)) as [->|Hs]; [by vm_compute in H|].
  unfold is_already_hashed in H. rewrite stem_mp3 in H by done.
  apply andb_true_iff in H as [L F]. apply Nat.eqb_eq in L.
  apply matches_hex_mp3_intro; [exact L|].
  apply Forall_forall. intros x Hx. rewrite forallb_forall in F.
  apply F. by apply list_elem_of_In.
Qed.

Lemma hashed_name_12_neq (c : list byte) (mp3 : string) :
  is_already_hashed mp3 = false → hashed_name 12 c ≠ mp3.
Proof. intros H <-. by rewrite is_already_hashed_12 in H. Qed.

End Digest.

(** * The file system operations and one loop iteration *)

Section Step.

Implicit Types (d : gmap string entry) (c : list byte) (name src dst : string).
Implicit Types (filenames : list string) (renamed_count : nat).

Lemma CHUNK_pos : (0 < CHUNK)%nat.
Proof. unfold CHUNK. apply Nat.neq_0_lt_0, Nat.pow_nonzero. lia. Qed.

(** The chunked read terminates within [length f + 1] rounds and feeds the
    hash object exactly the file's bytes. *)
Lemma read_chunks_total (fuel : nat) (f h : list byte) :
  (length f < fuel)%nat → read_chunks fuel f h = Some (h ++ f).
Proof.
  revert f h. induction fuel as [|fuel IH]; intros f h Hf; [lia|].
  cbn [read_chunks]. pose proof CHUNK_pos as Hc.
  destruct (take CHUNK f) as [|b chunk] eqn:E.
  - destruct f as [|x f]; [by rewrite app_nil_r|].
    destruct CHUNK; [lia | discriminate E].
  - rewrite <- E. rewrite IH.
    + by rewrite <- app_assoc, take_drop.
    + rewrite length_drop. destruct f; [discriminate E|]. cbn [length] in *. lia.
Qed.

Lemma sha256_of_file_file d name c :
  d !! name = Some (File c) → sha256_of_file name d = (d, Ok (SHA256.hexdigest c)).
Proof.
  intros H. unfold sha256_of_file, bind, open_rb. rewrite H.
  by rewrite read_chunks_total by lia.
Qed.

Lemma sha256_of_file_directory d name e :
  d !! name = Some (Directory e) → sha256_of_file name d = (d, Raise IsADirectoryError).
Proof. intros H. unfold sha256_of_file, bind, open_rb. by rewrite H. Qed.

Lemma sha256_of_file_missing d name :
  d !! name = None → sha256_of_file name d = (d, Raise FileNotFoundError).
Proof. intros H. unfold sha256_of_file, bind, open_rb. by rewrite H. Qed.

Lemma rename_self d name e :
  d !! name = Some e → rename name name d = (d, Ok tt).
Proof. intros H. unfold rename. rewrite H. by rewrite decide_True. Qed.

Lemma rename_file_free d src dst c :
  d !! src = Some (File c) → src ≠ dst → d !! dst = None →
  rename src dst d = (<[dst := File c]> (delete src d), Ok tt).
Proof. intros H Hne Hd. unfold rename. rewrite H, decide_False, Hd; done. Qed.

Lemma rename_file_over_file d src dst c c' :
  d !! src = Some (File c) → src ≠ dst → d !! dst = Some (File c') →
  rename src dst d = (<[dst := File c]> (delete src d), Ok tt).
Proof. intros H Hne Hd. unfold rename. rewrite H, decide_False, Hd; done. Qed.

Lemma rename_file_over_directory d src dst c e :
  d !! src = Some (File c) → src ≠ dst → d !! dst = Some (Directory e) →
  rename src dst d = (d, Raise IsADirectoryError).
Proof. intros H Hne Hd. unfold rename. rewrite H, decide_False, Hd; done. Qed.

(** A successful rename of a regular file either was a no-op on the file
    itself or moved the file onto a path that held no directory. *)
Lemma rename_file_ok d d' src dst c :
  d !! src = Some (File c) → rename src dst d = (d', Ok tt) →
  (src = dst ∧ d' = d) ∨
  (src ≠ dst ∧ d' = <[dst := File c]> (delete src d)
   ∧ ∀ e, d !! dst ≠ Some (Directory e)).
Proof.
  intros H. unfold rename. rewrite H.
  destruct (decide (src = dst)) as [->|Hne].
  - intros [= <-]. by left.
  - destruct (d !! dst) as [[c'|e']|] eqn:Hd; intros [= <-]; right; naive_solver.
Qed.

Lemma process_conforming d (mp3 : string) filenames renamed_count :
  is_already_hashed mp3 = true →
  process mp3 filenames renamed_count d = (d, Ok (filenames ++ [mp3], renamed_count)).
Proof. intros H. unfold process. by rewrite H. Qed.

(** A file that fails the conformance check is hashed and renamed to
    [rename_target]. *)
Lemma process_file d (mp3 : string) c filenames renamed_count :
  is_already_hashed mp3 = false → d !! mp3 = Some (File c) →
  process mp3 filenames renamed_count d =
    (run rename mp3 (rename_target d c);
     ret (filenames ++ [rename_target d c], (renamed_count + 1)%nat)) d.
Proof.
  intros Hn Hf. unfold process. rewrite Hn. unfold bind at 1.
  rewrite (sha256_of_file_file _ _ _ Hf).
  unfold bind at 1. unfold path_exists.
  fold (hashed_name HASH_LEN c). change HASH_LEN with 12%nat.
  unfold rename_target.
  destruct (bool_decide (is_Some (d !! hashed_name 12 c))) eqn:Ht.
  - replace (String.eqb (hashed_name 12 c) mp3) with false
      by (symmetry; apply String.eqb_neq; by apply hashed_name_12_neq).
    cbn [andb negb]. unfold bind at 1. unfold bind at 1.
    rewrite (sha256_of_file_file _ _ _ Hf). reflexivity.
  - cbn [andb]. reflexivity.
Qed.

Lemma process_unreadable d (mp3 : string) filenames renamed_count :
  is_already_hashed mp3 = false → (∀ c, d !! mp3 ≠ Some (File c)) →
  ∃ e, process mp3 filenames renamed_count d = (d, Raise e).
Proof.
  intros Hn Hf. unfold process. rewrite Hn. unfold bind at 1.
  destruct (d !! mp3) as [[c|e]|] eqn:E.
  - by destruct (Hf c).
  - rewrite (sha256_of_file_directory _ _ _ E). eauto.
  - rewrite (sha256_of_file_missing _ _ E). eauto.
Qed.

End Step.

(** * The scan and the sort *)

Section Scan.

Implicit Types (d : gmap string entry) (l : list string).

Lemma elem_of_glob_mp3 d (name : string) :
  name ∈ glob_mp3 d ↔ is_Some (d !! name) ∧ matches_mp3 name = true.
Proof.
  unfold glob_mp3. rewrite list_elem_of_filter, list_elem_of_fmap. split.
  - intros [Hm [[n e] [-> He]]]. apply elem_of_map_to_list in He. split; [eauto|done].
  - intros [[e He] Hm]. split; [done|]. exists (name, e). split; [done|].
    by apply elem_of_map_to_list.
Qed.

Lemma NoDup_glob_mp3 d : NoDup (glob_mp3 d).
Proof. apply NoDup_filter, NoDup_fst_map_to_list. Qed.

Lemma sorted_Permutation l : sorted l ≡ₚ l.
Proof. apply merge_sort_Permutation. Qed.

Lemma sorted_Sorted l : Sorted String.le (sorted l).
Proof. apply (Sorted_merge_sort String.le). Qed.

Lemma elem_of_sorted l (x : string) : x ∈ sorted l ↔ x ∈ l.
Proof. by rewrite sorted_Permutation. Qed.

Lemma length_sorted l : length (sorted l) = length l.
Proof. by rewrite sorted_Permutation. Qed.

Lemma NoDup_sorted l : NoDup (sorted l) ↔ NoDup l.
Proof. by rewrite sorted_Permutation. Qed.

(** Sorting depends only on the multiset of names. *)
Lemma sorted_unique l l' : l ≡ₚ l' → sorted l = sorted l'.
Proof.
  intros P. apply (Sorted_unique String.le); [apply sorted_Sorted ..|].
  by rewrite !sorted_Permutation.
Qed.

Lemma sorted_id l : Sorted String.le l → sorted l = l.
Proof.
  intros S. apply (Sorted_unique String.le); [apply sorted_Sorted | done |].
  apply sorted_Permutation.
Qed.

Lemma sorted_nil_inv l : sorted l = [] → l = [].
Proof.
  intros E. apply Permutation_nil_r. rewrite <- E. symmetry. apply sorted_Permutation.
Qed.

Lemma sorted_idemp l : sorted (sorted l) = sorted l.
Proof. apply sorted_id, sorted_Sorted. Qed.

End Scan.

(** * The loop invariant *)

Section Loop.

Implicit Types (d : gmap string entry) (c : list byte).
Implicit Types (todo rest filenames : list string) (renamed_count : nat).

Lemma rename_target_cases d c :
  (is_Some (d !! hashed_name 12 c) ∧ rename_target d c = hashed_name 16 c)
  ∨ (d !! hashed_name 12 c = None ∧ rename_target d c = hashed_name 12 c).
Proof.
  unfold rename_target. case_bool_decide as H; [by left|right].
  split; [|done]. by apply eq_None_not_Some.
Qed.

Lemma hashed_name_12_16 c c' : hashed_name 12 c ≠ hashed_name 16 c'.
Proof.
  intros E. pose proof (is_already_hashed_12 c) as H.
  rewrite E, is_already_hashed_16 in H. done.
Qed.

Lemma loop_inv_init d : loop_inv d (sorted (glob_mp3 d)) [].
Proof.
  split_and!.
  - apply NoDup_sorted, NoDup_glob_mp3.
  - intros m Hm. by apply elem_of_glob_mp3, elem_of_sorted.
  - intros n Hn. by apply elem_of_nil in Hn.
  - intros n Hs Hm. left. by apply elem_of_sorted, elem_of_glob_mp3.
Qed.

(** One iteration keeps the invariant and appends exactly one name. *)
Lemma process_inv d d' (m : string) rest filenames filenames'
    renamed_count renamed_count' :
  loop_inv d (m :: rest) filenames →
  process m filenames renamed_count d = (d', Ok (filenames', renamed_count')) →
  loop_inv d' rest filenames' ∧ ∃ t, filenames' = filenames ++ [t].
Proof.
  intros (Hnd & Htodo & Hdone & Hcover) Hp.
  apply NoDup_cons in Hnd as [Hm_rest Hnd].
  destruct (Htodo m ltac:(left)) as [Hm_some Hm_mp3].
  assert (∀ m', m' ∈ rest → m' ≠ m) as Hrest_ne by (intros m' ? ->; done).
  destruct (is_already_hashed m) eqn:Hconf.
  { rewrite process_conforming in Hp by done. injection Hp as <- <- <-.
    split; [|eauto]. split_and!; [done|..].
    - intros m' Hm'. apply Htodo. by right.
    - intros n [Hn| ->%list_elem_of_singleton]%elem_of_app; [by apply Hdone|].
      split_and!; [done..|by left].
    - intros n Hs Hmp. destruct (Hcover n Hs Hmp) as [[->|?]%elem_of_cons|?].
      + right. apply elem_of_app. right. by left.
      + by left.
      + right. apply elem_of_app. by left. }
  destruct (d !! m) as [[c|e]|] eqn:Hm; cycle 1.
  { destruct (process_unreadable d m filenames renamed_count Hconf) as [x Hx];
      [by rewrite Hm|]. rewrite Hx in Hp. discriminate Hp. }
  { by destruct Hm_some. }
  rewrite (process_file d m c) in Hp by done. unfold bind, ret in Hp.
  destruct (rename m (rename_target d c) d) as [d1 [[]|x]] eqn:Hr; [|discriminate Hp].
  injection Hp as <- <- <-. split; [|eauto].
  set (t := rename_target d c) in *.
  assert (matches_mp3 t = true) as Ht_mp3.
  { unfold t, rename_target. case_bool_decide; apply hashed_name_matches_mp3. }
  destruct (rename_file_ok _ _ _ _ _ Hm Hr) as [[Hmt ->]|(Hmt & -> & Hnodir)].
  { (* the file is renamed to itself *)
    split_and!; [done|..].
    - intros m' Hm'. apply Htodo. by right.
    - intros n [Hn| ->%list_elem_of_singleton]%elem_of_app; [by apply Hdone|].
      rewrite <- Hmt. split_and!; [done..|right]. exists c.
      destruct (rename_target_cases d c) as [[Ht E]|[Ht E]]; fold t in E.
      + split_and!; [done | congruence | done].
      + exfalso. apply (hashed_name_12_neq c m Hconf). congruence.
    - intros n Hs Hmp. destruct (Hcover n Hs Hmp) as [[->|?]%elem_of_cons|?].
      + right. apply elem_of_app. right. rewrite Hmt. by left.
      + by left.
      + right. apply elem_of_app. by left. }
  (* the file moves to [t] *)
  assert (∀ n, n ≠ m → is_Some (d !! n) → is_Some (<[t:=File c]> (delete m d) !! n)) as Hkeep.
  { intros n Hn Hs. destruct (decide (n = t)) as [->|Hnt].
    - rewrite lookup_insert_eq. eauto.
    - by rewrite lookup_insert_ne, lookup_delete_ne. }
  assert (settled (<[t:=File c]> (delete m d)) t) as Ht_settled.
  { split_and!; [done | rewrite lookup_insert_eq; eauto |].
    destruct (rename_target_cases d c) as [[Ht E]|[Ht E]]; fold t in E.
    - right. exists c. split_and!; [by rewrite lookup_insert_eq | done |].
      apply Hkeep; [by apply hashed_name_12_neq | done].
    - left. rewrite E. apply is_already_hashed_12. }
  split_and!; [done|..].
  - intros m' Hm'. destruct (Htodo m' ltac:(by right)) as [Hs Hmp].
    split; [|done]. apply Hkeep; [by apply Hrest_ne | done].
  - intros n [Hn| ->%list_elem_of_singleton]%elem_of_app; [|done].
    destruct (decide (n = t)) as [->|Hnt]; [done|].
    destruct (Hdone n Hn) as (Hmp & Hs & Hkind).
    assert (n ≠ m) as Hnm.
    { intros ->. destruct Hkind as [Hc|(c' & Hc' & E' & Ht')]; [congruence|].
      assert (c' = c) as -> by congruence.
      destruct (rename_target_cases d c) as [[Ht E]|[Ht E]]; fold t in E.
      - congruence.
      - rewrite Ht in Ht'. by destruct Ht'. }
    split_and!; [done | by apply Hkeep |].
    destruct Hkind as [Hc|(c' & Hc' & E' & Ht')]; [by left|right].
    exists c'. split_and!.
    + by rewrite lookup_insert_ne, lookup_delete_ne.
    + done.
    + apply Hkeep; [by apply hashed_name_12_neq | done].
  - intros n Hs Hmp. destruct (decide (n = t)) as [->|Hnt].
    { right. apply elem_of_app. right. by left. }
    rewrite lookup_insert_ne in Hs by done.
    destruct (decide (n = m)) as [->|Hnm]; [rewrite lookup_delete_eq in Hs; by destruct Hs|].
    rewrite lookup_delete_ne in Hs by done.
    destruct (Hcover n Hs Hmp) as [[->|?]%elem_of_cons|?]; [done | by left |].
    right. apply elem_of_app. by left.
Qed.

(** The whole loop: on success the invariant holds with nothing left to
    visit, and one name was appended per file visited. *)
Lemma for_each_inv todo d d' filenames filenames' renamed_count renamed_count' :
  loop_inv d todo filenames →
  for_each todo filenames renamed_count d = (d', Ok (filenames', renamed_count')) →
  loop_inv d' [] filenames' ∧ length filenames' = (length filenames + length todo)%nat.
Proof.
  revert d filenames renamed_count.
  induction todo as [|m rest IH]; intros d filenames renamed_count Hinv Hrun.
  - cbn in Hrun. injection Hrun as <- <- <-. split; [done | cbn; lia].
  - cbn [for_each] in Hrun. unfold bind in Hrun.
    destruct (process m filenames renamed_count d) as [d1 [[fn1 rc1]|x]] eqn:Hp;
      [|discriminate Hrun].
    destruct (process_inv _ _ _ _ _ _ _ _ Hinv Hp) as [Hinv1 [t ->]].
    cbn [fst snd] in Hrun. destruct (IH _ _ _ Hinv1 Hrun) as [Hfin Hlen].
    split; [done|]. rewrite Hlen, length_app. cbn. lia.
Qed.

End Loop.

(** * The whole run *)

Section Main.

Implicit Types (w : world) (d : gmap string entry).

(** A run that returns normally went through the loop and wrote the
    sorted names. *)
Lemma main_returned w :
  succeeds w →
  ∃ d d' filenames renamed_count,
    audio w = Some d
    ∧ for_each (sorted (glob_mp3 d)) [] 0%nat d = (d', Ok (filenames, renamed_count))
    ∧ audio (fst (main w)) = Some d'
    ∧ filelist (fst (main w)) = Some (sorted filenames).
Proof.
  unfold succeeds, main. destruct (audio w) as [d|]; [|discriminate].
  destruct (sorted (glob_mp3 d)) as [|m rest] eqn:E; [discriminate|].
  destruct (for_each (m :: rest) [] 0%nat d) as [d' [[filenames rc]|x]] eqn:Hrun;
    [|discriminate].
  intros _. exists d, d', filenames, rc. split_and!; [done | by rewrite E | done..].
Qed.

(** What holds of the directory and of the manifest after a successful run. *)
Lemma main_post w :
  succeeds w →
  ∃ d d' filenames,
    audio w = Some d ∧ audio (fst (main w)) = Some d'
    ∧ filelist (fst (main w)) = Some (sorted filenames)
    ∧ loop_inv d' [] filenames
    ∧ length filenames = length (glob_mp3 d).
Proof.
  intros (d & d' & filenames & rc & Hd & Hrun & Hd' & Hout)%main_returned.
  exists d, d', filenames. split_and!; [done..| |].
  - by destruct (for_each_inv _ _ _ _ _ _ _ (loop_inv_init d) Hrun).
  - destruct (for_each_inv _ _ _ _ _ _ _ (loop_inv_init d) Hrun) as [_ ->].
    cbn. apply length_sorted.
Qed.

Lemma settled_pattern d (n : string) :
  settled d n → matches_hex_mp3 12 n || matches_hex_mp3 16 n = true.
Proof.
  intros (Hmp & _ & [Hc|(c & _ & -> & _)]); apply orb_true_iff.
  - left. by apply conforming_pattern.
  - right. apply hashed_name_pattern. lia.
Qed.

End Main.

(** * The claims of the specification *)

(** C4. After every successful run, every entry of the written manifest is
    twelve or sixteen lowercase hexadecimal digits followed by [.mp3]. *)
Theorem manifest_entries_conform (w : world) :
  succeeds w →
  ∃ names, filelist (fst (main w)) = Some names
    ∧ Forall (λ n, matches_hex_mp3 12 n || matches_hex_mp3 16 n = true) names.
Proof.
  intros (d & d' & filenames & _ & _ & Hout & (_ & _ & Hdone & _) & _)%main_post.
  exists (sorted filenames). split; [done|].
  apply Forall_forall. intros n Hn. rewrite elem_of_sorted in Hn.
  eapply settled_pattern, Hdone, Hn.
Qed.

Lemma manifest_entries_conform_witness :
  ∃ names, filelist (fst (main (world_of (Some two_copies) None))) = Some names
    ∧ Forall (λ n, matches_hex_mp3 12 n || matches_hex_mp3 16 n = true) names.
Proof.
  apply (manifest_entries_conform (world_of (Some two_copies) None)).
  vm_compute. reflexivity.
Defined.

(** C7. When the audio directory is missing or is not a directory, the run
    ends with exit status 1 after printing one diagnostic on the error
    stream; the audio directory and the manifest file are left as they
    were, and nothing is printed on the standard output. *)
Theorem directory_not_found (w : world) :
  audio w = None →
  exit_status (snd (main w)) = 1%Z
  ∧ exit_status (snd (main w)) ≠ 0%Z
  ∧ stderr (fst (main w)) = stderr w ++ ["❌ Audio directory not found: " +:+ audio_path w]
  ∧ audio (fst (main w)) = audio w
  ∧ filelist (fst (main w)) = filelist w
  ∧ stdout (fst (main w)) = stdout w.
Proof. intros H. unfold main. rewrite H. cbn. by split_and!. Qed.

Lemma directory_not_found_witness :
  exit_status (snd (main (world_of None (Some ["0123456789ab.mp3"%string])))) = 1%Z
  ∧ exit_status (snd (main (world_of None (Some ["0123456789ab.mp3"%string])))) ≠ 0%Z
  ∧ stderr (fst (main (world_of None (Some ["0123456789ab.mp3"%string]))))
    = [] ++ ["❌ Audio directory not found: " +:+ "/srv/wbtb/audio"]
  ∧ audio (fst (main (world_of None (Some ["0123456789ab.mp3"%string])))) = None
  ∧ filelist (fst (main (world_of None (Some ["0123456789ab.mp3"%string]))))
    = Some ["0123456789ab.mp3"%string]
  ∧ stdout (fst (main (world_of None (Some ["0123456789ab.mp3"%string])))) = [].
Proof.
  apply (directory_not_found (world_of None (Some ["0123456789ab.mp3"%string]))).
  reflexivity.
Defined.

(** C8. When the audio directory exists but no entry of it matches
    [*.mp3], the run ends with exit status 1 and a diagnostic on the error
    stream; no file is renamed (the directory is unchanged) and the manifest
    file is neither created nor overwritten. *)
Theorem no_matching_files (w : world) (d : gmap string entry) :
  audio w = Some d →
  (∀ name, is_Some (d !! name) → matches_mp3 name = false) →
  exit_status (snd (main w)) = 1%Z
  ∧ exit_status (snd (main w)) ≠ 0%Z
  ∧ stderr (fst (main w)) = stderr w ++ ["⚠️  No .mp3 files found in audio/"]
  ∧ audio (fst (main w)) = Some d
  ∧ filelist (fst (main w)) = filelist w
  ∧ stdout (fst (main w)) = stdout w.
Proof.
  intros Hd Hnone. unfold main. rewrite Hd.
  assert (glob_mp3 d = []) as ->.
  { apply elem_of_nil_inv. intros n [Hs Hm]%elem_of_glob_mp3.
    rewrite (Hnone n Hs) in Hm. discriminate Hm. }
  cbn. by split_and!.
Qed.

Lemma no_matching_files_witness :
  exit_status (snd (main (world_of (Some no_mp3) None))) = 1%Z
  ∧ exit_status (snd (main (world_of (Some no_mp3) None))) ≠ 0%Z
  ∧ stderr (fst (main (world_of (Some no_mp3) None)))
    = [] ++ ["⚠️  No .mp3 files found in audio/"]
  ∧ audio (fst (main (world_of (Some no_mp3) None))) = Some no_mp3
  ∧ filelist (fst (main (world_of (Some no_mp3) None))) = None
  ∧ stdout (fst (main (world_of (Some no_mp3) None))) = [].
Proof.
  apply (no_matching_files (world_of (Some no_mp3) None) no_mp3).
  - reflexivity.
  - intros name Hs.
    assert (name ∈ (map_to_list no_mp3).*1) as Hin.
    { destruct Hs as [e He]. apply list_elem_of_fmap. exists (name, e).
      split; [done|]. by apply elem_of_map_to_list. }
    vm_compute in Hin.
    repeat (apply elem_of_cons in Hin as [->|Hin]; [by vm_compute|]).
    by apply elem_of_nil in Hin.
Defined.

(** C9. For every successful run, the names written to the manifest are in
    non-decreasing lexicographic order. *)
Theorem manifest_sorted (w : world) :
  succeeds w →
  ∃ names, filelist (fst (main w)) = Some names
    ∧ StronglySorted String.le names.
Proof.
  intros (d & d' & filenames & rc & _ & _ & _ & Hout)%main_returned.
  exists (sorted filenames). split; [done|].
  apply (StronglySorted_merge_sort String.le).
Qed.

Lemma manifest_sorted_witness :
  ∃ names, filelist (fst (main (world_of (Some three_copies) None))) = Some names
    ∧ StronglySorted String.le names.
Proof.
  apply (manifest_sorted (world_of (Some three_copies) None)).
  vm_compute. reflexivity.
Defined.

(** * Running the loop on known directories *)

Section Run.

Implicit Types (w : world) (d : gmap string entry) (c : list byte).
Implicit Types (filenames : list string) (renamed_count : nat).

(** The state after a loop that ran to its end. *)
Lemma main_ok w d d' filenames renamed_count :
  audio w = Some d → glob_mp3 d ≠ [] →
  for_each (sorted (glob_mp3 d)) [] 0%nat d = (d', Ok (filenames, renamed_count)) →
  succeeds w
  ∧ audio (fst (main w)) = Some d'
  ∧ filelist (fst (main w)) = Some (sorted filenames)
  ∧ stdout (fst (main w)) =
      (stdout w ++ ["📂 Found " +:+ pretty (length (sorted (glob_mp3 d)))
                      +:+ " MP3 file(s) in " +:+ audio_path w])
      ++ ["✅ Renamed " +:+ pretty renamed_count +:+ " file(s)";
          "✅ Wrote " +:+ pretty (length (sorted filenames))
            +:+ " entries to " +:+ output_path w].
Proof.
  intros Hd Hne Hrun. unfold succeeds, main. rewrite Hd.
  destruct (sorted (glob_mp3 d)) as [|m rest] eqn:E.
  { by apply sorted_nil_inv in E. }
  rewrite Hrun. cbn. by split_and!.
Qed.

(** A file that fails the conformance check and whose target is not a
    directory is renamed: onto itself, or onto the target. *)
Lemma process_renames d (mp3 : string) c filenames renamed_count :
  is_already_hashed mp3 = false → d !! mp3 = Some (File c) →
  (∀ e, d !! rename_target d c ≠ Some (Directory e)) →
  process mp3 filenames renamed_count d =
    (if decide (mp3 = rename_target d c) then d
     else <[rename_target d c := File c]> (delete mp3 d),
     Ok (filenames ++ [rename_target d c], (renamed_count + 1)%nat)).
Proof.
  intros Hn Hf Hnd. rewrite (process_file d mp3 c) by done. unfold bind, ret.
  destruct (decide (mp3 = rename_target d c)) as [E|E].
  - rewrite <- E at 1. by rewrite (rename_self d mp3 (File c)).
  - destruct (d !! rename_target d c) as [[c'|e]|] eqn:Ht.
    + by rewrite (rename_file_over_file d _ _ c c').
    + by destruct (Hnd e).
    + by rewrite (rename_file_free d _ _ c).
Qed.

Lemma rename_target_free d c :
  d !! hashed_name 12 c = None → rename_target d c = hashed_name 12 c.
Proof.
  intros H. destruct (rename_target_cases d c) as [[Ht _]|[_ E]]; [|done].
  rewrite H in Ht. by destruct Ht.
Qed.

Lemma rename_target_taken d c :
  is_Some (d !! hashed_name 12 c) → rename_target d c = hashed_name 16 c.
Proof.
  intros H. destruct (rename_target_cases d c) as [[_ E]|[Ht _]]; [done|].
  rewrite Ht in H. by destruct H.
Qed.

Lemma sorted_singleton (x : string) : sorted [x] = [x].
Proof. apply sorted_id. repeat constructor. Qed.

End Run.

(** C3. A file that fails the conformance check and whose twelve-digit
    name is free is renamed to the first twelve hexadecimal digits of the
    SHA-256 digest of its contents followed by [.mp3].  In a directory that
    holds the single file [song.mp3] whose digest starts with [p] (for
    instance [deadbeefcafe]), the file is renamed to [p.mp3] and the
    manifest is exactly that one name. *)
Theorem hash_rename_postcondition (w : world) (c : list byte) (p : string) :
  audio w = Some {["song.mp3"%string := File c]} →
  prefix_of 12 (SHA256.hexdigest c) = p →
  (succeeds w
   ∧ audio (fst (main w)) = Some {[p +:+ ".mp3" := File c]}
   ∧ filelist (fst (main w)) = Some [p +:+ ".mp3"])
  ∧ (∀ (d : gmap string entry) (mp3 : string) (c' : list byte)
       (filenames : list string) (renamed_count : nat),
       is_already_hashed mp3 = false → d !! mp3 = Some (File c') →
       d !! hashed_name 12 c' = None →
       process mp3 filenames renamed_count d =
         (<[hashed_name 12 c' := File c']> (delete mp3 d),
          Ok (filenames ++ [hashed_name 12 c'], (renamed_count + 1)%nat))
       ∧ hashed_name 12 c' = prefix_of 12 (SHA256.hexdigest c') +:+ ".mp3"
       ∧ matches_hex_mp3 12 (hashed_name 12 c') = true).
Proof.
  intros Hd Hp.
  assert (∀ (d : gmap string entry) (mp3 : string) (c' : list byte)
       (filenames : list string) (renamed_count : nat),
       is_already_hashed mp3 = false → d !! mp3 = Some (File c') →
       d !! hashed_name 12 c' = None →
       process mp3 filenames renamed_count d =
         (<[hashed_name 12 c' := File c']> (delete mp3 d),
          Ok (filenames ++ [hashed_name 12 c'], (renamed_count + 1)%nat))) as Hstep.
  { intros d mp3 c' filenames rc Hn Hf Hfree.
    rewrite (process_renames d mp3 c') by (rewrite ?rename_target_free; congruence).
    rewrite rename_target_free by done.
    rewrite decide_False; [done|]. intros E. apply (hashed_name_12_neq c' mp3 Hn). done. }
  split; [|intros d mp3 c' filenames rc Hn Hf Hfree; split_and!;
            [by apply Hstep | done | apply hashed_name_pattern; lia]].
  set (d := {["song.mp3"%string := File c]} : gmap string entry) in *.
  assert (glob_mp3 d = ["song.mp3"%string]) as Hglob.
  { unfold glob_mp3, d. by rewrite map_to_list_singleton. }
  assert (p +:+ ".mp3" = hashed_name 12 c) as -> by (by rewrite <- Hp).
  assert (d !! hashed_name 12 c = None) as Hfree.
  { apply lookup_singleton_ne. intros E. by apply (hashed_name_12_neq c "song.mp3"). }
  destruct (main_ok w d (<[hashed_name 12 c := File c]> (delete "song.mp3"%string d))
              [hashed_name 12 c] 1%nat) as (Hs & Ha & Hf & _).
  - done.
  - by rewrite Hglob.
  - rewrite Hglob, sorted_singleton. cbn [for_each]. unfold bind.
    assert (d !! "song.mp3"%string = Some (File c)) as Hsong
      by (unfold d; apply lookup_singleton_eq).
    assert (is_already_hashed "song.mp3" = false) as Hn by reflexivity.
    by rewrite (Hstep d "song.mp3"%string c [] 0%nat Hn Hsong Hfree).
  - split; [done|]. split; [|by rewrite Hf, sorted_singleton].
    rewrite Ha. unfold d. by rewrite delete_singleton_eq, insert_empty.
Qed.

Lemma hash_rename_postcondition_witness :
  (succeeds (world_of (Some {["song.mp3"%string := File abc]}) None)
   ∧ audio (fst (main (world_of (Some {["song.mp3"%string := File abc]}) None)))
     = Some {["ba7816bf8f01.mp3"%string := File abc]}
   ∧ filelist (fst (main (world_of (Some {["song.mp3"%string := File abc]}) None)))
     = Some ["ba7816bf8f01.mp3"%string])
  ∧ (process "song.mp3" [] 0%nat {["song.mp3"%string := File abc]} =
       (<[hashed_name 12 abc := File abc]>
          (delete "song.mp3"%string {["song.mp3"%string := File abc]}),
        Ok ([] ++ [hashed_name 12 abc], (0 + 1)%nat))
     ∧ hashed_name 12 abc = prefix_of 12 (SHA256.hexdigest abc) +:+ ".mp3"
     ∧ matches_hex_mp3 12 (hashed_name 12 abc) = true).
Proof.
  destruct (hash_rename_postcondition
              (world_of (Some {["song.mp3"%string := File abc]}) None) abc "ba7816bf8f01")
    as [Hscenario Hstep].
  - reflexivity.
  - vm_compute. reflexivity.
  - split; [exact Hscenario|]. apply Hstep; vm_compute; reflexivity.
Defined.

(** * The collision test *)

Section CollisionTest.

Implicit Types (d : gmap string entry) (filenames : list string) (renamed_count : nat).

Lemma sha256_of_file_ok d (mp3 digest : string) d' :
  sha256_of_file mp3 d = (d', Ok digest) →
  ∃ c, d !! mp3 = Some (File c) ∧ digest = SHA256.hexdigest c ∧ d' = d.
Proof.
  destruct (d !! mp3) as [[c|e]|] eqn:E.
  - rewrite (sha256_of_file_file _ _ _ E). intros [= <- <-]. eauto.
  - rewrite (sha256_of_file_directory _ _ _ E). discriminate.
  - rewrite (sha256_of_file_missing _ _ E). discriminate.
Qed.

Lemma process_exists_only_eq d (mp3 : string) filenames renamed_count :
  process_exists_only mp3 filenames renamed_count d = process mp3 filenames renamed_count d.
Proof.
  unfold process_exists_only, process.
  destruct (is_already_hashed mp3) eqn:Hn; [done|].
  unfold bind at 1 6.
  destruct (sha256_of_file mp3 d) as [d1 [digest|x]] eqn:Hd; [|done].
  apply sha256_of_file_ok in Hd as (c & Hc & -> & ->).
  fold (hashed_name HASH_LEN c). change HASH_LEN with 12%nat.
  replace (String.eqb (hashed_name 12 c) mp3) with false
    by (symmetry; apply String.eqb_neq; by apply hashed_name_12_neq).
  cbn [negb]. unfold bind at 1 5. unfold path_exists.
  by rewrite andb_true_r.
Qed.

Lemma for_each_exists_only_eq (mp3_files : list string) d filenames renamed_count :
  for_each_exists_only mp3_files filenames renamed_count d
  = for_each mp3_files filenames renamed_count d.
Proof.
  revert d filenames renamed_count.
  induction mp3_files as [|mp3 rest IH]; intros d filenames renamed_count; [done|].
  cbn [for_each_exists_only for_each]. unfold bind.
  rewrite process_exists_only_eq.
  destruct (process mp3 filenames renamed_count d) as [d1 [r|x]]; [apply IH | done].
Qed.

Lemma main_exists_only_eq (w : world) : main_exists_only w = main w.
Proof.
  unfold main_exists_only, main.
  destruct (audio w) as [d|]; [|done].
  destruct (sorted (glob_mp3 d)) as [|m rest]; [done|].
  by rewrite for_each_exists_only_eq.
Qed.

End CollisionTest.

(** C10. In the rename branch, i.e. for a file whose name fails the
    conformance check and whose digest was read, the candidate name (twelve
    digits of the digest, then [.mp3]) passes the conformance check, hence
    differs from the file's own name, and the conjunct [new_path != mp3] is
    true.  The program whose collision test is [new_path.exists()] alone
    behaves identically: same loop iteration on every state, same result of
    [main] on every world. *)
Theorem own_path_conjunct_redundant
    (d : gmap string entry) (mp3 digest : string) :
  is_already_hashed mp3 = false →
  sha256_of_file mp3 d = (d, Ok digest) →
  (is_already_hashed (prefix_of HASH_LEN digest +:+ ".mp3") = true
   ∧ prefix_of HASH_LEN digest +:+ ".mp3" ≠ mp3
   ∧ negb (String.eqb (prefix_of HASH_LEN digest +:+ ".mp3") mp3) = true)
  ∧ (∀ (d' : gmap string entry) (name : string) (filenames : list string)
       (renamed_count : nat),
       process_exists_only name filenames renamed_count d'
       = process name filenames renamed_count d')
  ∧ (∀ w, main_exists_only w = main w).
Proof.
  intros Hn (c & Hc & -> & _)%sha256_of_file_ok.
  fold (hashed_name HASH_LEN c). change HASH_LEN with 12%nat.
  pose proof (hashed_name_12_neq c mp3 Hn) as Hne.
  split_and!.
  - apply is_already_hashed_12.
  - done.
  - apply negb_true_iff, String.eqb_neq, Hne.
  - intros. apply process_exists_only_eq.
  - apply main_exists_only_eq.
Qed.

Lemma own_path_conjunct_redundant_witness :
  (is_already_hashed
     (prefix_of HASH_LEN
        "ba7816bf8f01cfea414140de5dae2223b00361a396177a9cb410ff61f20015ad" +:+ ".mp3") = true
   ∧ prefix_of HASH_LEN
       "ba7816bf8f01cfea414140de5dae2223b00361a396177a9cb410ff61f20015ad" +:+ ".mp3"
     ≠ "a.mp3"%string
   ∧ negb (String.eqb
       (prefix_of HASH_LEN
          "ba7816bf8f01cfea414140de5dae2223b00361a396177a9cb410ff61f20015ad" +:+ ".mp3")
       "a.mp3") = true)
  ∧ (∀ (d' : gmap string entry) (name : string) (filenames : list string)
       (renamed_count : nat),
       process_exists_only name filenames renamed_count d'
       = process name filenames renamed_count d')
  ∧ (∀ w, main_exists_only w = main w).
Proof.
  apply (own_path_conjunct_redundant two_copies "a.mp3"
           "ba7816bf8f01cfea414140de5dae2223b00361a396177a9cb410ff61f20015ad").
  - reflexivity.
  - vm_compute. reflexivity.
Defined.

(** * Two files with the same twelve-digit digest prefix *)

Section TwoFiles.

Implicit Types (w : world) (d : gmap string entry) (a b : string) (ca cb : list byte).

Lemma string_le_app (p s t : string) : String.le (p +:+ s) (p +:+ t) ↔ String.le s t.
Proof.
  induction p as [|x p IH]; [done|].
  change (String x p +:+ s) with (String x (p +:+ s)).
  change (String x p +:+ t) with (String x (p +:+ t)).
  rewrite <- IH. unfold String.le, String.leb. cbn [String.compare].
  unfold Ascii.compare. by rewrite N.compare_refl.
Qed.

Lemma dot_before_hex (h : ascii) : is_hex h = true → Ascii.compare "."%char h = Lt.
Proof.
  unfold is_hex. rewrite bool_decide_eq_true. intros H. cbn in H.
  repeat (apply elem_of_cons in H as [->|H]; [reflexivity|]).
  by apply elem_of_nil in H.
Qed.

(** The twelve-digit name sorts before every sixteen-digit name that
    extends it: the dot comes before the hexadecimal digits. *)
Lemma hashed_12_le_16 ca cb :
  prefix_of 12 (SHA256.hexdigest ca) = prefix_of 12 (SHA256.hexdigest cb) →
  String.le (hashed_name 12 ca) (hashed_name 16 cb).
Proof.
  intros E. unfold hashed_name. rewrite E.
  set (X := chars (SHA256.hexdigest cb)).
  assert (prefix_of 16 (SHA256.hexdigest cb)
          = prefix_of 12 (SHA256.hexdigest cb) +:+ str (take 4 (drop 12 X))) as ->.
  { apply chars_inj. rewrite chars_app, !chars_prefix_of, chars_str.
    fold X. by rewrite take_take_drop. }
  assert (length (take 4 (drop 12 X)) = 4%nat) as L.
  { rewrite length_take, length_drop. unfold X. rewrite hexdigest_length. lia. }
  assert (Forall (λ x, is_hex x = true) (take 4 (drop 12 X))) as F
    by apply Forall_take, Forall_drop, hexdigest_is_hex.
  destruct (take 4 (drop 12 X)) as [|h q]; [discriminate L|].
  apply Forall_cons in F as [Hh _].
  assert (∀ p s t : string, (p +:+ s) +:+ t = p +:+ (s +:+ t)) as assoc.
  { intros p s t. apply chars_inj. by rewrite !chars_app, app_assoc. }
  rewrite assoc. apply string_le_app.
  change (str (h :: q)) with (String h (str q)).
  change (String h (str q) +:+ ".mp3") with (String h (str q +:+ ".mp3")).
  unfold String.le, String.leb. cbn [String.compare].
  by rewrite (dot_before_hex h Hh).
Qed.

Lemma sorted_pair a b : String.le a b → sorted [a; b] = [a; b].
Proof. intros H. apply sorted_id. repeat constructor. done. Qed.

Lemma sorted_pair_swap a b : String.le a b → sorted [b; a] = [a; b].
Proof.
  intros H. rewrite <- (sorted_pair a b H). apply sorted_unique. apply Permutation_swap.
Qed.

Lemma glob_mp3_two d a b :
  a ≠ b → (∀ n, n ∈ glob_mp3 d ↔ n = a ∨ n = b) → String.le a b →
  sorted (glob_mp3 d) = [a; b].
Proof.
  intros Hab Hglob Hle. rewrite <- (sorted_pair a b Hle). apply sorted_unique.
  apply NoDup_Permutation.
  - apply NoDup_glob_mp3.
  - apply NoDup_cons. split; [by intros ->%list_elem_of_singleton|].
    apply NoDup_singleton.
  - intros n. rewrite Hglob, elem_of_cons, list_elem_of_singleton. done.
Qed.

Lemma not_scanned_absent d a b (t : string) :
  (∀ n, n ∈ glob_mp3 d ↔ n = a ∨ n = b) →
  matches_mp3 t = true → t ≠ a → t ≠ b → d !! t = None.
Proof.
  intros Hglob Hm Ha Hb. apply eq_None_not_Some. intros Hs.
  assert (t ∈ glob_mp3 d) as Hin by (by apply elem_of_glob_mp3).
  apply Hglob in Hin as [?|?]; done.
Qed.

(** The run on a directory whose [.mp3] entries are the two files [a] and
    [b], [a] visited first. *)
Lemma two_files_ordered w d a b ca cb :
  audio w = Some d →
  d !! a = Some (File ca) → d !! b = Some (File cb) → a ≠ b →
  (∀ n, n ∈ glob_mp3 d ↔ n = a ∨ n = b) →
  is_already_hashed a = false ∨ a = hashed_name 12 ca →
  is_already_hashed b = false ∨ b = hashed_name 12 cb →
  prefix_of 12 (SHA256.hexdigest ca) = prefix_of 12 (SHA256.hexdigest cb) →
  String.le a b →
  succeeds w
  ∧ ∃ c, (c = ca ∨ c = cb)
      ∧ filelist (fst (main w)) = Some [hashed_name 12 ca; hashed_name 16 c].
Proof.
  intros Hd Ha Hb Hab Hglob Hca Hcb Hpre Hle.
  assert (hashed_name 12 ca = hashed_name 12 cb) as H12
    by (unfold hashed_name; by rewrite Hpre).
  assert (glob_mp3 d ≠ []) as Hne.
  { intros E. specialize (Hglob a). rewrite E in Hglob.
    apply (not_elem_of_nil a), Hglob. by left. }
  pose proof (glob_mp3_two d a b Hab Hglob Hle) as Hscan.
  assert (∀ c, hashed_name 16 c ≠ a → hashed_name 16 c ≠ b → d !! hashed_name 16 c = None)
    as H16free.
  { intros c ? ?. apply (not_scanned_absent d a b); [done | | done..].
    apply hashed_name_matches_mp3. }
  destruct Hca as [Hna|Ea], Hcb as [Hnb|Eb].
  - (* both fail the conformance check *)
    assert (d !! hashed_name 12 ca = None) as Hfree.
    { apply (not_scanned_absent d a b); [done | apply hashed_name_matches_mp3 |..];
        by apply hashed_name_12_neq. }
    set (d1 := <[hashed_name 12 ca := File ca]> (delete a d)).
    assert (process a [] 0%nat d = (d1, Ok ([hashed_name 12 ca], 1%nat))) as Hp1.
    { rewrite (process_renames d a ca), (rename_target_free d ca Hfree); try done.
      - rewrite decide_False; [done|]. intros E. by apply (hashed_name_12_neq ca a).
      - intros e. rewrite (rename_target_free d ca Hfree), Hfree. done. }
    assert (d1 !! b = Some (File cb)) as Hb1.
    { unfold d1. rewrite lookup_insert_ne by (by apply hashed_name_12_neq).
      by rewrite lookup_delete_ne. }
    assert (rename_target d1 cb = hashed_name 16 cb) as Ht.
    { apply rename_target_taken. rewrite <- H12. unfold d1.
      rewrite lookup_insert_eq. eauto. }
    assert (∀ e, d1 !! hashed_name 16 cb ≠ Some (Directory e)) as Hnd.
    { intros e. unfold d1.
      rewrite lookup_insert_ne by apply hashed_name_12_16.
      destruct (decide (hashed_name 16 cb = a)) as [->|Hta].
      { by rewrite lookup_delete_eq. }
      rewrite lookup_delete_ne by done.
      destruct (decide (hashed_name 16 cb = b)) as [->|Htb]; [by rewrite Hb|].
      by rewrite H16free. }
    destruct (main_ok w d
                (if decide (b = hashed_name 16 cb) then d1
                 else <[hashed_name 16 cb := File cb]> (delete b d1))
                [hashed_name 12 ca; hashed_name 16 cb] 2%nat) as (Hs & _ & Hf & _);
      [done | done | |].
    + rewrite Hscan. cbn [for_each]. unfold bind. rewrite Hp1. cbn [fst snd].
      rewrite (process_renames d1 b cb) by (rewrite ?Ht; done).
      by rewrite Ht.
    + split; [done|]. exists cb. split; [by right|].
      rewrite Hf. by rewrite sorted_pair by (by apply hashed_12_le_16).
  - (* [b] already bears the twelve-digit name *)
    assert (is_already_hashed b = true) as Hcb by (rewrite Eb; apply is_already_hashed_12).
    assert (rename_target d ca = hashed_name 16 ca) as Ht.
    { apply rename_target_taken. rewrite H12, <- Eb, Hb. eauto. }
    assert (∀ e, d !! hashed_name 16 ca ≠ Some (Directory e)) as Hnd.
    { intros e. destruct (decide (hashed_name 16 ca = a)) as [->|Hta]; [by rewrite Ha|].
      rewrite H16free; [done | done |].
      rewrite Eb. intros E. by apply (hashed_name_12_16 cb ca). }
    destruct (main_ok w d
                (if decide (a = hashed_name 16 ca) then d
                 else <[hashed_name 16 ca := File ca]> (delete a d))
                [hashed_name 16 ca; b] 1%nat) as (Hs & _ & Hf & _);
      [done | done | |].
    + rewrite Hscan. cbn [for_each]. unfold bind.
      rewrite (process_renames d a ca) by (rewrite ?Ht; done).
      rewrite Ht. cbn [fst snd]. by rewrite process_conforming.
    + split; [done|]. exists ca. split; [by left|].
      rewrite Hf, Eb, <- H12.
      by rewrite sorted_pair_swap by (by apply hashed_12_le_16).
  - (* [a] already bears the twelve-digit name *)
    assert (is_already_hashed a = true) as Hca by (rewrite Ea; apply is_already_hashed_12).
    assert (rename_target d cb = hashed_name 16 cb) as Ht.
    { apply rename_target_taken. rewrite <- H12, <- Ea, Ha. eauto. }
    assert (∀ e, d !! hashed_name 16 cb ≠ Some (Directory e)) as Hnd.
    { intros e. destruct (decide (hashed_name 16 cb = b)) as [->|Htb]; [by rewrite Hb|].
      rewrite H16free; [done | | done].
      rewrite Ea. intros E. by apply (hashed_name_12_16 ca cb). }
    destruct (main_ok w d
                (if decide (b = hashed_name 16 cb) then d
                 else <[hashed_name 16 cb := File cb]> (delete b d))
                [a; hashed_name 16 cb] 1%nat) as (Hs & _ & Hf & _);
      [done | done | |].
    + rewrite Hscan. cbn [for_each]. unfold bind.
      rewrite process_conforming by done. cbn [fst snd].
      rewrite (process_renames d b cb) by (rewrite ?Ht; done).
      by rewrite Ht.
    + split; [done|]. exists cb. split; [by right|].
      rewrite Hf, Ea.
      by rewrite sorted_pair by (by apply hashed_12_le_16).
  - congruence.
Qed.

End TwoFiles.

(** C2. Collision policy.  When two distinct files with the same
    twelve-digit digest prefix are the [.mp3] entries of the directory (each
    fails the conformance check, or already bears the twelve-digit name of
    its own contents), the run succeeds and the manifest is one twelve-digit
    name followed by one sixteen-digit name.  In general, one loop iteration
    on a file that fails the conformance check, while another entry exists
    at the candidate path, renames the file to the first sixteen digits of
    the same digest followed by [.mp3]. *)
Theorem collision_policy
    (w : world) (d : gmap string entry) (n1 n2 : string) (c1 c2 : list byte) :
  audio w = Some d →
  d !! n1 = Some (File c1) → d !! n2 = Some (File c2) →
  glob_mp3 d ≡ₚ [n1; n2] →
  is_already_hashed n1 = false ∨ n1 = hashed_name 12 c1 →
  is_already_hashed n2 = false ∨ n2 = hashed_name 12 c2 →
  prefix_of 12 (SHA256.hexdigest c1) = prefix_of 12 (SHA256.hexdigest c2) →
  (succeeds w
   ∧ ∃ c, (c = c1 ∨ c = c2)
       ∧ filelist (fst (main w)) = Some [hashed_name 12 c1; hashed_name 16 c]
       ∧ matches_hex_mp3 12 (hashed_name 12 c1) = true
       ∧ matches_hex_mp3 16 (hashed_name 16 c) = true)
  ∧ (∀ (d' : gmap string entry) (mp3 : string) (c : list byte)
       (filenames : list string) (renamed_count : nat),
       is_already_hashed mp3 = false → d' !! mp3 = Some (File c) →
       is_Some (d' !! hashed_name 12 c) → hashed_name 12 c ≠ mp3 →
       process mp3 filenames renamed_count d' =
         (run rename mp3 (hashed_name 16 c);
          ret (filenames ++ [hashed_name 16 c], (renamed_count + 1)%nat)) d'
       ∧ hashed_name 16 c = prefix_of (12 + 4) (SHA256.hexdigest c) +:+ ".mp3"
       ∧ ((∀ e, d' !! hashed_name 16 c ≠ Some (Directory e)) →
          process mp3 filenames renamed_count d' =
            (if decide (mp3 = hashed_name 16 c) then d'
             else <[hashed_name 16 c := File c]> (delete mp3 d'),
             Ok (filenames ++ [hashed_name 16 c], (renamed_count + 1)%nat)))).
Proof.
  intros Hd H1 H2 Hperm Hk1 Hk2 Hpre. split.
  - assert (n1 ≠ n2) as Hne.
    { pose proof (NoDup_glob_mp3 d) as Hnd. rewrite Hperm in Hnd.
      apply NoDup_cons in Hnd as [Hnotin _]. intros ->. apply Hnotin. by left. }
    assert (∀ n, n ∈ glob_mp3 d ↔ n = n1 ∨ n = n2) as Hglob.
    { intros n. by rewrite Hperm, elem_of_cons, list_elem_of_singleton. }
    assert (∀ c, matches_hex_mp3 12 (hashed_name 12 c1) = true
                 ∧ matches_hex_mp3 16 (hashed_name 16 c) = true) as Hpat.
    { intros c. split; apply hashed_name_pattern; lia. }
    destruct (total String.le n1 n2) as [Hle|Hle].
    + destruct (two_files_ordered w d n1 n2 c1 c2) as (Hs & c & Hc & Hf); try done.
      split; [done|]. exists c. by destruct (Hpat c).
    + destruct (two_files_ordered w d n2 n1 c2 c1) as (Hs & c & Hc & Hf); try done.
      { intros n. rewrite Hglob. tauto. }
      split; [done|]. exists c. destruct (Hpat c). split_and!; [tauto | | done..].
      rewrite Hf. unfold hashed_name. by rewrite Hpre.
  - intros d' mp3 c filenames rc Hn Hf Htaken _.
    pose proof (rename_target_taken d' c Htaken) as Ht.
    split_and!.
    + by rewrite (process_file d' mp3 c), Ht.
    + done.
    + intros Hnd. by rewrite (process_renames d' mp3 c), Ht by (rewrite ?Ht; done).
Qed.

Lemma collision_policy_witness :
  (succeeds (world_of (Some two_copies) None)
   ∧ ∃ c, (c = abc ∨ c = abc)
       ∧ filelist (fst (main (world_of (Some two_copies) None)))
         = Some [hashed_name 12 abc; hashed_name 16 c]
       ∧ matches_hex_mp3 12 (hashed_name 12 abc) = true
       ∧ matches_hex_mp3 16 (hashed_name 16 c) = true)
  ∧ (process "copy.mp3" [] 0%nat renamed_and_copy =
       (run rename "copy.mp3" (hashed_name 16 abc);
        ret ([] ++ [hashed_name 16 abc], (0 + 1)%nat)) renamed_and_copy
     ∧ hashed_name 16 abc = prefix_of (12 + 4) (SHA256.hexdigest abc) +:+ ".mp3"
     ∧ ((∀ e, renamed_and_copy !! hashed_name 16 abc ≠ Some (Directory e)) →
        process "copy.mp3" [] 0%nat renamed_and_copy =
          (if decide ("copy.mp3"%string = hashed_name 16 abc) then renamed_and_copy
           else <[hashed_name 16 abc := File abc]> (delete "copy.mp3"%string renamed_and_copy),
           Ok ([] ++ [hashed_name 16 abc], (0 + 1)%nat)))).
Proof.
  destruct (collision_policy (world_of (Some two_copies) None) two_copies
              "a.mp3" "b.mp3" abc abc) as [Hscenario Hstep].
  - reflexivity.
  - vm_compute. reflexivity.
  - vm_compute. reflexivity.
  - assert (glob_mp3 two_copies = ["a.mp3"%string; "b.mp3"%string]) as ->
      by (vm_compute; reflexivity).
    reflexivity.
  - left. vm_compute. reflexivity.
  - left. vm_compute. reflexivity.
  - reflexivity.
  - split; [exact Hscenario|]. apply Hstep.
    + vm_compute. reflexivity.
    + vm_compute. reflexivity.
    + exists (File abc). vm_compute. reflexivity.
    + intros E. vm_compute in E. discriminate E.
Defined.

(** * Counting the manifest *)

Section Counting.

Implicit Types (w : world) (d : gmap string entry) (names : list string).



End Counting.


(** * Runs without deep collisions *)

Section Distinct.

Implicit Types (d : gmap string entry) (c : list byte).
Implicit Types (todo rest filenames : list string) (renamed_count : nat).





End Distinct.







(** * A second run *)

Section SecondRun.

Implicit Types (w : world) (d : gmap string entry).
Implicit Types (todo filenames : list string) (renamed_count : nat).

(** On files that are all settled the loop changes nothing in the
    directory; it still "renames" onto itself, and counts, every settled
    file that fails the conformance check. *)
Lemma for_each_settled todo d filenames renamed_count :
  (∀ m, m ∈ todo → settled d m) →
  for_each todo filenames renamed_count d =
    (d, Ok (filenames ++ todo,
            (renamed_count
             + length (filter (λ m, is_already_hashed m = false) todo))%nat)).
Proof.
  revert filenames renamed_count.
  induction todo as [|m rest IH]; intros filenames renamed_count Hall.
  - cbn. by rewrite app_nil_r, Nat.add_0_r.
  - cbn [for_each]. unfold bind.
    destruct (Hall m ltac:(left)) as (_ & _ & Hkind).
    assert (∀ m', m' ∈ rest → settled d m') as Hrest by (intros m' ?; apply Hall; by right).
    destruct (is_already_hashed m) eqn:Hconf.
    + rewrite process_conforming by done. cbn [fst snd]. rewrite IH by done.
      rewrite filter_cons_False by (rewrite Hconf; done).
      by rewrite <- app_assoc.
    + destruct Hkind as [?|(c & Hc & E & Ht)]; [congruence|].
      pose proof (rename_target_taken d c Ht) as Htarget.
      rewrite (process_renames d m c) by (rewrite ?Htarget, <- ?E, ?Hc; done).
      rewrite Htarget, <- E, decide_True by done. cbn [fst snd].
      rewrite IH by done. rewrite filter_cons_True by done.
      rewrite <- app_assoc. cbn [length app]. do 3 f_equal. lia.
Qed.

(** After a successful run, a further run succeeds, leaves the directory as
    it is and writes the sorted names of its [.mp3] entries: the first
    manifest without its repetitions.  (For the directories of the model:
    with hard links between entries a replaced name can survive a run.) *)
Lemma second_run_stable w :
  succeeds w →
  ∃ d' names,
    audio (fst (main w)) = Some d' ∧ filelist (fst (main w)) = Some names
    ∧ succeeds (fst (main w))
    ∧ audio (fst (main (fst (main w)))) = Some d'
    ∧ filelist (fst (main (fst (main w)))) = Some (sorted (remove_dups names))
    ∧ (NoDup names → filelist (fst (main (fst (main w)))) = Some names).
Proof.
  intros Hs.
  destruct (main_post w Hs)
    as (d & d' & filenames & Hd & Hd' & Hout & (_ & _ & Hdone & Hcover) & Hlen).
  assert (∀ n, n ∈ filenames ↔ n ∈ glob_mp3 d') as Hel.
  { intros n. rewrite elem_of_glob_mp3. split.
    - intros Hn. destruct (Hdone n Hn) as (? & ? & _). done.
    - intros [Hsome Hm]. destruct (Hcover n Hsome Hm) as [Hn|Hn]; [|done].
      by apply elem_of_nil in Hn. }
  assert (glob_mp3 d' ≠ []) as Hne.
  { intros E. assert (filenames = []) as ->.
    { apply elem_of_nil_inv. intros n Hn%Hel. rewrite E in Hn. by apply elem_of_nil in Hn. }
    cbn in Hlen. symmetry in Hlen. apply length_zero_iff_nil in Hlen.
    unfold succeeds, main in Hs. rewrite Hd, Hlen in Hs. cbn in Hs. discriminate Hs. }
  destruct (main_ok (fst (main w)) d' d' (sorted (glob_mp3 d'))
              (length (filter (λ m, is_already_hashed m = false) (sorted (glob_mp3 d')))))
    as (Hs2 & Hd2 & Hout2 & _); [done | done | |].
  { rewrite for_each_settled; [done|].
    intros m Hm. apply Hdone, Hel. by rewrite elem_of_sorted in Hm. }
  assert (sorted (sorted (glob_mp3 d')) = sorted (remove_dups (sorted filenames))) as Hdd.
  { rewrite sorted_idemp. apply sorted_unique, NoDup_Permutation.
    - apply NoDup_glob_mp3.
    - apply NoDup_remove_dups.
    - intros n. by rewrite elem_of_remove_dups, elem_of_sorted, Hel. }
  exists d', (sorted filenames). split_and!; [done.. | by rewrite Hout2, Hdd |].
  intros Hnd. rewrite Hout2, Hdd. f_equal.
  rewrite <- (sorted_idemp filenames) at 2. apply sorted_unique.
  apply NoDup_Permutation; [apply NoDup_remove_dups | done |].
  intros n. by rewrite elem_of_remove_dups.
Qed.

End SecondRun.

(** C1 fails on the code.  Two files with the same contents: the first run
    names them with twelve and with sixteen digits.  The sixteen-digit name
    fails the conformance check, so the second run hashes that file again,
    renames it onto itself and reports one renamed file.  Three files with
    the same contents: the first manifest lists the sixteen-digit name
    twice, the second one once. *)
Theorem second_run_after_fallback :
  succeeds (world_of (Some two_copies) None)
  ∧ audio (fst (main (world_of (Some two_copies) None)))
    = Some (list_to_map [("ba7816bf8f01.mp3"%string, File abc);
                         ("ba7816bf8f01cfea.mp3"%string, File abc)])
  ∧ is_already_hashed "ba7816bf8f01cfea.mp3" = false
  ∧ succeeds (fst (main (world_of (Some two_copies) None)))
  ∧ stdout (fst (main (fst (main (world_of (Some two_copies) None)))))
    = ["📂 Found 2 MP3 file(s) in /srv/wbtb/audio";
       "✅ Renamed 2 file(s)";
       "✅ Wrote 2 entries to /srv/wbtb/filelist.json";
       "📂 Found 2 MP3 file(s) in /srv/wbtb/audio";
       "✅ Renamed 1 file(s)";
       "✅ Wrote 2 entries to /srv/wbtb/filelist.json"]%string
  ∧ filelist (fst (main (world_of (Some three_copies) None)))
    = Some ["ba7816bf8f01.mp3"; "ba7816bf8f01cfea.mp3"; "ba7816bf8f01cfea.mp3"]%string
  ∧ filelist (fst (main (fst (main (world_of (Some three_copies) None)))))
    = Some ["ba7816bf8f01.mp3"; "ba7816bf8f01cfea.mp3"]%string.
Proof. split_and!; vm_compute; reflexivity. Qed.


(** * Further properties of the script *)

(** ** The two helper functions *)

(** X1. [sha256_of_file] never changes the directory.  On a regular file
    of any size it returns the digest of the whole contents, 64 lowercase
    hexadecimal digits: reading in chunks of 8192 bytes is transparent and
    the loop always ends.  On a sub-directory it raises [IsADirectoryError],
    on a missing path [FileNotFoundError]. *)
Theorem sha256_of_file_spec (d : gmap string entry) (path : string) :
  fst (sha256_of_file path d) = d
  ∧ snd (sha256_of_file path d) =
      match d !! path with
      | Some (File c) => Ok (SHA256.hexdigest c)
      | Some (Directory _) => Raise IsADirectoryError
      | None => Raise FileNotFoundError
      end
  ∧ ∀ digest, snd (sha256_of_file path d) = Ok digest →
      length (chars digest) = 64%nat ∧ Forall (λ x, is_hex x = true) (chars digest).
Proof.
  destruct (d !! path) as [[c|b]|] eqn:E.
  - rewrite (sha256_of_file_file d path c E). split_and!; [done..|].
    intros digest [= <-]. split; [apply hexdigest_length | apply hexdigest_is_hex].
  - rewrite (sha256_of_file_directory d path b E). split_and!; [done..|]. discriminate.
  - rewrite (sha256_of_file_missing d path E). split_and!; [done..|]. discriminate.
Qed.

Lemma rfind_absent (x : ascii) (l : list ascii) : x ∉ l → rfind x l = None.
Proof.
  induction l as [|y l IH]; [done|]. intros Hx.
  apply not_elem_of_cons in Hx as [Hne Hx]. cbn [rfind]. rewrite (IH Hx).
  destruct (Ascii.eqb_spec y x) as [->|_]; done.
Qed.

Lemma rfind_last (x : ascii) (l e : list ascii) :
  x ∉ e → rfind x (l ++ x :: e) = Some (length l).
Proof.
  intros Hx. induction l as [|y l IH].
  - cbn [app rfind length]. by rewrite (rfind_absent x e Hx), Ascii.eqb_refl.
  - rewrite <- app_comm_cons. cbn [rfind length]. by rewrite IH.
Qed.

Lemma hex_no_dot (l : list ascii) : Forall (λ x, is_hex x = true) l → "."%char ∉ l.
Proof.
  intros F Hin. rewrite Forall_forall in F. specialize (F _ Hin). vm_compute in F.
  discriminate F.
Qed.

(** X2. For an entry name (a name without path separator) that the scan
    matches, [is_already_hashed] holds exactly when the name is twelve
    lowercase hexadecimal digits followed by [.mp3]. *)
Theorem is_already_hashed_iff (name : string) :
  "/"%char ∉ chars name →
  matches_mp3 name = true →
  (is_already_hashed name = true ↔ matches_hex_mp3 12 name = true).
Proof.
  intros _ Hm. split; [by apply conforming_pattern|].
  apply matches_mp3_iff in Hm as [s ->].
  unfold matches_hex_mp3. rewrite chars_app, length_app.
  change (length (chars ".mp3")) with 4%nat.
  rewrite !andb_true_iff, Nat.eqb_eq, bool_decide_eq_true.
  intros [[Hlen Hhex] _].
  assert (length (chars s) = 12%nat) as L by lia.
  rewrite <- L, take_app_length in Hhex.
  unfold is_already_hashed. rewrite stem_mp3.
  - rewrite L. cbn [Nat.eqb HASH_LEN andb]. exact Hhex.
  - intros ->. discriminate L.
Qed.

Lemma is_already_hashed_iff_witness :
  is_already_hashed "0123456789ab.mp3" = true
  ↔ matches_hex_mp3 12 "0123456789ab.mp3" = true.
Proof.
  apply (is_already_hashed_iff "0123456789ab.mp3").
  - intros H. vm_compute in H.
    repeat (apply elem_of_cons in H as [H|H]; [discriminate H|]).
    by apply elem_of_nil in H.
  - reflexivity.
Defined.

(** X3. On entry names [is_already_hashed] does not look at the extension:
    a stem of twelve lowercase hexadecimal digits passes without extension
    and with any non-empty extension that has neither a dot nor a path
    separator. *)
Theorem is_already_hashed_any_extension (s ext : string) :
  length (chars s) = 12%nat →
  Forall (λ x, is_hex x = true) (chars s) →
  ext ≠ ""%string → "."%char ∉ chars ext → "/"%char ∉ chars ext →
  is_already_hashed s = true ∧ is_already_hashed (s +:+ "." +:+ ext) = true.
Proof.
  intros L F Hext Hdot _.
  assert (forallb (λ c, bool_decide (c ∈ chars "0123456789abcdef")) (chars s) = true) as Hall.
  { apply forallb_forall. intros x Hx. rewrite Forall_forall in F.
    apply (F x). by apply list_elem_of_In. }
  split.
  - unfold is_already_hashed, stem. rewrite (rfind_absent _ _ (hex_no_dot _ F)).
    by rewrite L, Hall.
  - unfold is_already_hashed, stem. rewrite !chars_app.
    change (chars ".") with ["."%char]. cbn [app].
    rewrite (rfind_last _ _ _ Hdot), length_app, L. cbn [length].
    assert (0 < length (chars ext))%nat as Le by (destruct ext; [done | cbn; lia]).
    replace (12 <? 12 + S (length (chars ext)) - 1)%nat with true
      by (symmetry; apply Nat.ltb_lt; lia).
    cbn [Nat.ltb Nat.leb andb]. rewrite <- L, take_app_length, chars_str, L.
    exact Hall.
Qed.

Lemma is_already_hashed_any_extension_witness :
  is_already_hashed "0123456789ab" = true
  ∧ is_already_hashed ("0123456789ab" +:+ "." +:+ "wav") = true.
Proof.
  apply (is_already_hashed_any_extension "0123456789ab" "wav").
  - reflexivity.
  - repeat constructor.
  - discriminate.
  - intros H. vm_compute in H.
    repeat (apply elem_of_cons in H as [H|H]; [discriminate H|]).
    by apply elem_of_nil in H.
  - intros H. vm_compute in H.
    repeat (apply elem_of_cons in H as [H|H]; [discriminate H|]).
    by apply elem_of_nil in H.
Defined.

(** ** What a run leaves alone *)

Section Steps.

Implicit Types (d : gmap string entry) (c : list byte).
Implicit Types (todo filenames : list string) (renamed_count : nat).

(** Every iteration either leaves the directory as it is or moves one
    regular file, whose name fails the conformance check, onto a path that
    holds no sub-directory. *)
Lemma process_state d d' (m : string) filenames renamed_count r :
  process m filenames renamed_count d = (d', r) →
  d' = d
  ∨ ∃ c, is_already_hashed m = false ∧ d !! m = Some (File c)
         ∧ rename_target d c ≠ m
         ∧ (∀ b, d !! rename_target d c ≠ Some (Directory b))
         ∧ d' = <[rename_target d c := File c]> (delete m d)
         ∧ r = Ok (filenames ++ [rename_target d c], (renamed_count + 1)%nat).
Proof.
  intros Hp. destruct (is_already_hashed m) eqn:Hconf.
  { rewrite process_conforming in Hp by done. injection Hp as <- _. by left. }
  destruct (d !! m) as [[c|b]|] eqn:Hm; cycle 1.
  { destruct (process_unreadable d m filenames renamed_count Hconf) as [x Hx];
      [by rewrite Hm|]. rewrite Hx in Hp. injection Hp as <- _. by left. }
  { destruct (process_unreadable d m filenames renamed_count Hconf) as [x Hx];
      [by rewrite Hm|]. rewrite Hx in Hp. injection Hp as <- _. by left. }
  rewrite (process_file d m c) in Hp by done. unfold bind, ret in Hp.
  destruct (decide (m = rename_target d c)) as [E|E].
  { rewrite <- E in Hp at 1. rewrite (rename_self d m (File c) Hm) in Hp.
    injection Hp as <- _. by left. }
  destruct (d !! rename_target d c) as [[c'|b]|] eqn:Ht.
  - rewrite (rename_file_over_file d _ _ c c') in Hp by done.
    injection Hp as <- <-. right. exists c. rewrite Ht. by split_and!.
  - rewrite (rename_file_over_directory d _ _ c b) in Hp by done.
    injection Hp as <- _. by left.
  - rewrite (rename_file_free d _ _ c) in Hp by done.
    injection Hp as <- <-. right. exists c. rewrite Ht. by split_and!.
Qed.

(** A property of the directory that every iteration on a scanned name
    keeps is kept by the loop, whether it ends normally or raises. *)
Lemma for_each_preserves (P : gmap string entry → Prop) todo :
  (∀ (m : string) filenames renamed_count d d' r,
     m ∈ todo → P d → process m filenames renamed_count d = (d', r) → P d') →
  ∀ filenames renamed_count d d' r,
    P d → for_each todo filenames renamed_count d = (d', r) → P d'.
Proof.
  induction todo as [|m rest IH]; intros Hstep filenames renamed_count d d' r HP Hrun.
  - cbn in Hrun. injection Hrun as <- _. done.
  - cbn [for_each] in Hrun. unfold bind in Hrun.
    destruct (process m filenames renamed_count d) as [d1 [[fn1 rc1]|x]] eqn:Hp.
    + eapply (IH ltac:(intros; eapply Hstep; [by right | done..]) _ _ d1);
        [|exact Hrun].
      eapply Hstep; [by left | done..].
    + injection Hrun as <- _. eapply Hstep; [by left | done..].
Qed.

(** The same for a whole run on an existing audio directory. *)
Lemma main_preserves (P : gmap string entry → Prop) (w : world) d :
  audio w = Some d →
  (∀ (m : string) filenames renamed_count d1 d2 r,
     matches_mp3 m = true → P d1 → process m filenames renamed_count d1 = (d2, r) → P d2) →
  P d →
  ∃ d', audio (fst (main w)) = Some d' ∧ P d'.
Proof.
  intros Hd Hstep HP. unfold main. rewrite Hd.
  destruct (sorted (glob_mp3 d)) as [|m rest] eqn:E; [by exists d|].
  destruct (for_each (m :: rest) [] 0%nat d) as [d' [[fn rc]|x]] eqn:Hrun;
    (exists d'; split; [done|]);
    (eapply (for_each_preserves P (m :: rest)); [|exact HP|exact Hrun]);
    intros m' fn' rc' d1 d2 r Hin; apply Hstep;
    rewrite <- E, elem_of_sorted in Hin; by apply elem_of_glob_mp3 in Hin as [_ ?].
Qed.

End Steps.



(** X5. A run never touches an entry whose name does not match [*.mp3]:
    whatever the outcome, such a name is bound after the run exactly as
    before. *)
Theorem other_entries_untouched (w : world) (d : gmap string entry) (n : string) :
  audio w = Some d → matches_mp3 n = false →
  ∃ d', audio (fst (main w)) = Some d' ∧ d' !! n = d !! n.
Proof.
  intros Hd Hn.
  apply (main_preserves (λ x, x !! n = d !! n) w d Hd); [|done].
  intros m fn rc d1 d2 r Hm H1 Hp.
  destruct (process_state _ _ _ _ _ _ Hp) as [->|(c & _ & Hc & _ & _ & -> & _)]; [done|].
  assert (n ≠ m) as Hnm by (intros ->; congruence).
  assert (n ≠ rename_target d1 c) as Hnt.
  { intros ->. unfold rename_target in Hn.
    case_bool_decide; by rewrite hashed_name_matches_mp3 in Hn. }
  by rewrite lookup_insert_ne, lookup_delete_ne.
Qed.

Lemma other_entries_untouched_witness :
  ∃ d', audio (fst (main (world_of (Some mixed) None))) = Some d'
        ∧ d' !! "notes.txt"%string = mixed !! "notes.txt"%string.
Proof.
  apply (other_entries_untouched (world_of (Some mixed) None) mixed "notes.txt").
  - reflexivity.
  - vm_compute. reflexivity.
Defined.

(** X6. A run only moves regular files.  Whatever the outcome, the
    sub-directories after the run are exactly those before it, and every
    regular file after the run has the contents of a regular file that was
    in the directory before. *)
Theorem run_only_moves_files (w : world) (d : gmap string entry) :
  audio w = Some d →
  ∃ d', audio (fst (main w)) = Some d'
    ∧ (∀ n b, d' !! n = Some (Directory b) ↔ d !! n = Some (Directory b))
    ∧ (∀ n c, d' !! n = Some (File c) → ∃ n0, d !! n0 = Some (File c)).
Proof.
  intros Hd.
  apply (main_preserves
           (λ x, (∀ n b, x !! n = Some (Directory b) ↔ d !! n = Some (Directory b))
                 ∧ (∀ n c, x !! n = Some (File c) → ∃ n0, d !! n0 = Some (File c)))
           w d Hd); [|by eauto].
  intros m fn rc d1 d2 r _ [Hdir Hfile] Hp.
  destruct (process_state _ _ _ _ _ _ Hp) as [->|(c & _ & Hc & Hne & Hnd & -> & _)]; [done|].
  split.
  - intros n b. rewrite <- Hdir.
    destruct (decide (n = rename_target d1 c)) as [->|Hnt].
    { rewrite lookup_insert_eq. split; [discriminate|]. intros H. by destruct (Hnd b). }
    rewrite lookup_insert_ne by done.
    destruct (decide (n = m)) as [->|Hnm].
    { rewrite lookup_delete_eq, Hc. split; discriminate. }
    by rewrite lookup_delete_ne.
  - intros n c'. destruct (decide (n = rename_target d1 c)) as [->|Hnt].
    { rewrite lookup_insert_eq. intros [= <-]. by apply (Hfile m). }
    rewrite lookup_insert_ne by done.
    destruct (decide (n = m)) as [->|Hnm]; [by rewrite lookup_delete_eq|].
    rewrite lookup_delete_ne by done. apply Hfile.
Qed.

Lemma run_only_moves_files_witness :
  ∃ d', audio (fst (main (world_of (Some with_subdir) None))) = Some d'
    ∧ (∀ n b, d' !! n = Some (Directory b) ↔ with_subdir !! n = Some (Directory b))
    ∧ (∀ n c, d' !! n = Some (File c) → ∃ n0, with_subdir !! n0 = Some (File c)).
Proof.
  apply (run_only_moves_files (world_of (Some with_subdir) None) with_subdir).
  reflexivity.
Defined.

(** ** What blocks a run, what a run reports *)

Section Outcome.

Implicit Types (d : gmap string entry) (c : list byte).
Implicit Types (todo filenames : list string) (renamed_count : nat).

(** Each iteration that ends normally counts one renamed file exactly when
    the name fails the conformance check. *)
Lemma for_each_count todo d d' filenames filenames' renamed_count renamed_count' :
  for_each todo filenames renamed_count d = (d', Ok (filenames', renamed_count')) →
  renamed_count' = (renamed_count + length (to_hash todo))%nat.
Proof.
  revert d filenames renamed_count.
  induction todo as [|m rest IH]; intros d filenames renamed_count Hrun.
  { cbn in Hrun. injection Hrun as _ _ <-. cbn. lia. }
  cbn [for_each] in Hrun. unfold bind in Hrun.
  destruct (process m filenames renamed_count d) as [d1 [[fn1 rc1]|x]] eqn:Hp;
    [|discriminate Hrun].
  cbn [fst snd] in Hrun. rewrite (IH _ _ _ Hrun). unfold to_hash.
  destruct (is_already_hashed m) eqn:Hconf.
  - rewrite process_conforming in Hp by done. injection Hp as _ _ <-.
    by rewrite filter_cons_False by (rewrite Hconf; done).
  - rewrite filter_cons_True by done. cbn [length].
    destruct (d !! m) as [[c|b]|] eqn:Hm.
    + rewrite (process_file d m c) in Hp by done. unfold bind, ret in Hp.
      destruct (rename m (rename_target d c) d) as [d2 [[]|x]]; [|discriminate Hp].
      injection Hp as _ _ <-. lia.
    + destruct (process_unreadable d m filenames renamed_count Hconf) as [x Hx];
        [by rewrite Hm|]. rewrite Hx in Hp. discriminate Hp.
    + destruct (process_unreadable d m filenames renamed_count Hconf) as [x Hx];
        [by rewrite Hm|]. rewrite Hx in Hp. discriminate Hp.
Qed.

End Outcome.

(** X7. A sub-directory whose name matches [*.mp3] and fails the
    conformance check blocks the run: the run does not succeed, its exit
    status is not zero and the manifest file is left as it was. *)
Theorem subdirectory_blocks_run
    (w : world) (d : gmap string entry) (n : string) (b : bool) :
  audio w = Some d →
  d !! n = Some (Directory b) → matches_mp3 n = true → is_already_hashed n = false →
  ¬ succeeds w
  ∧ exit_status (snd (main w)) ≠ 0%Z
  ∧ filelist (fst (main w)) = filelist w.
Proof.
  intros Hd Hn Hmp Hconf.
  assert (¬ succeeds w) as Hfail.
  { intros Hs.
    destruct (main_post w Hs) as (d_ & d' & fn & Hd_ & Hd' & _ & (_ & _ & Hdone & Hcover) & _).
    destruct (main_preserves (λ x, x !! n = Some (Directory b)) w d Hd) as (d'_ & Hd'_ & Hn');
      [|done|].
    { intros m fn' rc d1 d2 r _ H1 Hp.
      destruct (process_state _ _ _ _ _ _ Hp) as [->|(c & _ & Hc & _ & Hnd & -> & _)]; [done|].
      assert (n ≠ m) as Hnm by (intros ->; congruence).
      assert (n ≠ rename_target d1 c) as Hnt by (intros ->; by destruct (Hnd b)).
      by rewrite lookup_insert_ne, lookup_delete_ne. }
    assert (d'_ = d') as -> by congruence.
    destruct (Hcover n ltac:(eauto) Hmp) as [Hin|Hin]; [by apply elem_of_nil in Hin|].
    destruct (Hdone n Hin) as (_ & _ & [Hc|(c & Hc & _)]); congruence. }
  split; [done|]. unfold succeeds in Hfail. revert Hfail. unfold main. rewrite Hd.
  destruct (sorted (glob_mp3 d)) as [|m rest]; [done|].
  by destruct (for_each (m :: rest) [] 0%nat d) as [d' [[fn rc]|x]].
Qed.

Lemma subdirectory_blocks_run_witness :
  ¬ succeeds (world_of (Some with_subdir) None)
  ∧ exit_status (snd (main (world_of (Some with_subdir) None))) ≠ 0%Z
  ∧ filelist (fst (main (world_of (Some with_subdir) None))) = None.
Proof.
  apply (subdirectory_blocks_run (world_of (Some with_subdir) None) with_subdir "b.mp3" true).
  - reflexivity.
  - vm_compute. reflexivity.
  - vm_compute. reflexivity.
  - vm_compute. reflexivity.
Defined.

(** X9. A successful run prints exactly three progress lines and nothing
    on the error stream: the number of files found, which is at least one,
    the number renamed, which is the number of scanned names that fail the
    conformance check, and the number of entries written, which is the
    number found. *)
Theorem progress_report (w : world) (d : gmap string entry) :
  audio w = Some d → succeeds w →
  stdout (fst (main w))
  = stdout w ++ progress w (length (glob_mp3 d)) (length (to_hash (glob_mp3 d)))
  ∧ stderr (fst (main w)) = stderr w
  ∧ (1 ≤ length (glob_mp3 d))%nat.
Proof.
  intros Hd Hs.
  destruct (main_returned w Hs) as (d_ & d' & fn & rc & Hd_ & Hrun & _ & _).
  assert (d_ = d) as -> by congruence.
  assert (glob_mp3 d ≠ []) as Hne.
  { intros E. unfold succeeds, main in Hs. rewrite Hd, E in Hs. discriminate Hs. }
  destruct (main_ok w d d' fn rc Hd Hne Hrun) as (_ & _ & _ & Hout).
  destruct (for_each_inv _ _ _ _ _ _ _ (loop_inv_init d) Hrun) as [_ Hlen].
  pose proof (for_each_count _ _ _ _ _ _ _ Hrun) as Hrc.
  assert (length (to_hash (sorted (glob_mp3 d))) = length (to_hash (glob_mp3 d))) as Hperm.
  { unfold to_hash. by rewrite sorted_Permutation. }
  split_and!.
  - cbn [length Nat.add] in Hlen, Hrc.
    rewrite Hout, !length_sorted, Hlen, Hrc, Hperm, length_sorted, <- app_assoc. done.
  - unfold succeeds in Hs. unfold main in *. rewrite Hd in *.
    destruct (sorted (glob_mp3 d)); [discriminate Hs|].
    by destruct (for_each _ _ _ _) as [? [[??]|?]].
  - destruct (glob_mp3 d); [done | cbn; lia].
Qed.

Lemma progress_report_witness :
  stdout (fst (main (world_of (Some mixed) None)))
  = [] ++ progress (world_of (Some mixed) None)
            (length (glob_mp3 mixed)) (length (to_hash (glob_mp3 mixed)))
  ∧ stderr (fst (main (world_of (Some mixed) None))) = []
  ∧ (1 ≤ length (glob_mp3 mixed))%nat.
Proof.
  apply (progress_report (world_of (Some mixed) None) mixed).
  - reflexivity.
  - vm_compute. reflexivity.
Defined.

(** ** Running again *)

Section Again.

Implicit Types (w : world) (d : gmap string entry) (c : list byte).
Implicit Types (todo rest filenames : list string) (renamed_count : nat).




End Again.







(** ** Names and contents *)



Section NoLoss.

Implicit Types (d : gmap string entry) (c : list byte).
Implicit Types (todo rest filenames : list string) (renamed_count : nat).



End NoLoss.




